(** * DoHlyzer meter: flow accumulation and the time-difference statistics

    A shallow embedding of [Flow.add_packet] (Flow.py) and of the class
    [TimeDiff] (ContElements/TimeDiff.py), with the statements of the
    specification checked against it.

    Numbers.  Python's [float] and numpy's [float64] are IEEE 754 binary64
    values; they are embedded as Rocq's primitive [float], whose operations
    are the same correctly rounded binary64 operations.  The integer
    sentinels [-1] and [-10] of the source are embedded as the floats of the
    same value: every operation the source applies to them ([-], [/], [!=],
    [float(...)]) first converts them to exactly that float.  The counter
    [TimeDiff.mean_count] stays an integer ([Z]). *)

From Stdlib Require Import String Floats ZArith List Bool Lia Sorted
  Permutation.
Import ListNotations.

Set Warnings "-inexact-float".

Local Open Scope float_scope.

(* ================================================================== *)
(** * Comparisons of binary64 values *)

(** The order facts used below hold for every value that is not a NaN.
    They are derived from the bit-level specification [SFcompare] through a
    lexicographic key. *)

Module FloatOrder.

Definition key (x : spec_float) : Z * Z * Z :=
  match x with
  | S754_nan => (0, 0, 0)%Z
  | S754_zero _ => (0, 0, 0)%Z
  | S754_infinity true => (-2, 0, 0)%Z
  | S754_infinity false => (2, 0, 0)%Z
  | S754_finite true m e => (-1, - e, Z.neg m)%Z
  | S754_finite false m e => (1, e, Z.pos m)%Z
  end.

Definition lex3 (p q : Z * Z * Z) : comparison :=
  let '(a, b, c) := p in
  let '(a', b', c') := q in
  match (a ?= a')%Z with
  | Eq => match (b ?= b')%Z with
          | Eq => (c ?= c')%Z
          | r => r
          end
  | r => r
  end.

Definition lexle (p q : Z * Z * Z) : Prop :=
  let '(a, b, c) := p in
  let '(a', b', c') := q in
  (a < a' \/ (a = a' /\ (b < b' \/ (b = b' /\ c <= c'))))%Z.

Definition not_nan (x : float) : Prop := is_nan x = false.

Definition fkey (x : float) : Z * Z * Z := key (Prim2SF x).

End FloatOrder.

(* ================================================================== *)
(** * Python and library operations used by the source *)

Module Py.

(** The only exception the modelled code can meet. *)
Inductive exn : Type := ZeroDivisionError.

Inductive result (A : Type) : Type :=
| Ok (a : A)
| Raise (e : exn).
Arguments Ok {A} a.
Arguments Raise {A} e.

(** [float(n)] for an [int]: the nearest binary64 value. *)
Definition of_Z (n : Z) : float :=
  SF2Prim (binary_normalize prec emax n 0 false).

(** [x / n] where [n] is an [int].  Python raises [ZeroDivisionError] when
    [n == 0] and [x] is an [int] or a [float]; a [numpy.float64] numerator
    would give [inf] or [nan] with a warning instead.  The model raises in
    both cases, so a proof that no exception occurs covers both. *)
Definition truediv (x : float) (n : Z) : result float :=
  if (n =? 0)%Z then Raise ZeroDivisionError else Ok (x / of_Z n).

(** [max([first, *rest])]: the first item is the candidate and a later item
    replaces it when [item > candidate]. *)
Definition max (first : float) (rest : list float) : float :=
  fold_left (fun maxitem item => if maxitem <? item then item else maxitem)
            rest first.

(** [x != y] on floats. *)
Definition ne (x y : float) : bool := negb (x =? y).

(** [a[lo:hi]] for [0 <= lo]. *)
Definition slice {A} (a : list A) (lo hi : nat) : list A :=
  firstn (hi - lo) (skipn lo a).

End Py.

Module Numpy.

Definition of_nat (n : nat) : float := Py.of_Z (Z.of_nat n).

(** ** [add.reduce]: numpy's pairwise summation

    Fewer than 8 items are added from left to right; up to 128 items are
    added in eight interleaved accumulators that are combined as a balanced
    tree, the items after the last full block of 8 being then added one by
    one; a longer array is split in two halves (the first a multiple of 8). *)

Fixpoint zip_add (r l : list float) : list float :=
  match r, l with
  | x :: r', y :: l' => (x + y) :: zip_add r' l'
  | _, _ => r
  end.

Fixpoint add_blocks (blocks : nat) (r l : list float)
  : list float * list float :=
  match blocks with
  | O => (r, l)
  | S k => add_blocks k (zip_add r (firstn 8 l)) (skipn 8 l)
  end.

Definition combine8 (r : list float) : float :=
  match r with
  | [r0; r1; r2; r3; r4; r5; r6; r7] =>
      ((r0 + r1) + (r2 + r3)) + ((r4 + r5) + (r6 + r7))
  | _ => nan
  end.

Definition unrolled_sum (a : list float) : float :=
  let n := length a in
  let '(r, rest) := add_blocks (n / 8 - 1) (firstn 8 a) (skipn 8 a) in
  fold_left add rest (combine8 r).

Fixpoint pairwise_sum (fuel : nat) (a : list float) : float :=
  let n := length a in
  if (n <? 8)%nat then fold_left add a (-0)
  else if (n <=? 128)%nat then unrolled_sum a
  else match fuel with
       | O => unrolled_sum a
       | S fuel' =>
           let n2 := (n / 2 - (n / 2) mod 8)%nat in
           pairwise_sum fuel' (firstn n2 a) + pairwise_sum fuel' (skipn n2 a)
       end.

(** [numpy.sum(a)]: the reduction starts from the identity [0]. *)
Definition sum (a : list float) : float :=
  0 + pairwise_sum (length a) a.

(** [numpy.mean(a)]: the sum divided by the number of items ([nan] for an
    empty array, with a warning). *)
Definition mean (a : list float) : float :=
  sum a / of_nat (length a).

(** [numpy.var(a)]: population variance ([ddof = 0]), the mean of the
    squared deviations from the mean. *)
Definition var (a : list float) : float :=
  let arrmean := sum a / of_nat (length a) in
  let x := map (fun v => v - arrmean) a in
  let x := map (fun v => v * v) x in
  sum x / of_nat (length a).

Definition sqrt (x : float) : float := PrimFloat.sqrt x.

(** The order numpy sorts by: NaN is larger than everything else. *)
Definition lt (a b : float) : bool :=
  (a <? b) || (is_nan b && negb (is_nan a)).

Fixpoint insert (x : float) (l : list float) : list float :=
  match l with
  | [] => [x]
  | h :: t => if lt h x then h :: insert x t else x :: h :: t
  end.

Fixpoint sort (a : list float) : list float :=
  match a with
  | [] => []
  | x :: t => insert x (sort t)
  end.

(** [numpy.median(a)]: the mean of the middle item (odd size) or of the two
    middle items (even size) of the sorted array; [nan] when the array is
    empty or holds a NaN. *)
Definition median (a : list float) : float :=
  let part := sort a in
  let sz := length a in
  let index := (sz / 2)%nat in
  let rout :=
    if Nat.odd sz then mean (Py.slice part index (index + 1))
    else mean (Py.slice part (index - 1) (index + 1)) in
  if (0 <? sz)%nat && is_nan (last part 0) then nan else rout.

(** [numpy.unique(a, return_counts=True)] on the sorted array: each run of
    equal items gives its first item and its length. *)
Definition same (x y : float) : bool :=
  (x =? y) || (is_nan x && is_nan y).

Fixpoint runs (sorted : list float) : list (float * nat) :=
  match sorted with
  | [] => []
  | x :: t =>
      match runs t with
      | (y, c) :: r => if same x y then (x, S c) :: r else (x, 1%nat) :: (y, c) :: r
      | [] => [(x, 1%nat)]
      end
  end.

Definition unique_counts (a : list float) : list (float * nat) :=
  runs (sort a).

(** [cnts.argmax()]: the first entry with the largest count. *)
Fixpoint argmax (l : list (float * nat)) : option (float * nat) :=
  match l with
  | [] => None
  | p :: t =>
      match argmax t with
      | Some q => if (snd p <? snd q)%nat then Some q else Some p
      | None => Some p
      end
  end.

End Numpy.

Module Scipy.

(** [scipy.stats.mode(a)[0]]: the value of [numpy.unique] with the largest
    count.  ([nan] for an empty input; what the library answers when the
    input holds a NaN depends on its version and is not used below.) *)
Definition mode (a : list float) : float :=
  match Numpy.argmax (Numpy.unique_counts a) with
  | Some (v, _) => v
  | None => nan
  end.

End Scipy.

(* ================================================================== *)
(** * Packets and flows (Flow.py) *)

(** ContElements/Context/PacketDirection.py: the two-valued enumeration. *)
Inductive PacketDirection : Type := FORWARD | REVERSE.

Definition PacketDirection_eqb (a b : PacketDirection) : bool :=
  match a, b with
  | FORWARD, FORWARD | REVERSE, REVERSE => true
  | _, _ => false
  end.

(** A captured packet; the modelled code reads its capture time only. *)
Record Packet : Type := mkPacket { time : float }.

Module Flow.

Record t : Type := mk {
  dest_ip : string;
  src_ip : string;
  src_port : Z;
  dest_port : Z;
  packets : list (Packet * PacketDirection);
  interface : string;
  latest_timestamp : float
}.

(** [Flow.__init__], given the key that [get_packet_flow_key] derived. *)
Definition init (key : string * string * Z * Z) (interface : string) : t :=
  let '(dest_ip, src_ip, src_port, dest_port) := key in
  {| dest_ip := dest_ip; src_ip := src_ip;
     src_port := src_port; dest_port := dest_port;
     packets := []; interface := interface; latest_timestamp := 0 |}.

(** [Flow.add_packet]. *)
Definition add_packet (self : t) (packet : Packet) (direction : PacketDirection) : t :=
  let packets' := packets self ++ [(packet, direction)] in
  {| dest_ip := dest_ip self; src_ip := src_ip self;
     src_port := src_port self; dest_port := dest_port self;
     packets := packets';
     interface := interface self;
     latest_timestamp := Py.max (time packet) [latest_timestamp self] |}.

(** Packets handed to the flow one after the other. *)
Definition add_packets (self : t) (l : list (Packet * PacketDirection)) : t :=
  fold_left (fun f pd => add_packet f (fst pd) (snd pd)) l self.

End Flow.

(* ================================================================== *)
(** * TimeDiff (ContElements/TimeDiff.py) *)

Module TimeDiff.

(** The class attributes, shared by every instance. *)
Record ClassState : Type := mkState {
  mean_count : Z;
  grand_total : float;
  grand_mean : option float
}.

(** The class as it is after its definition is executed: [grand_mean] is
    not an attribute yet. *)
Definition initial : ClassState :=
  {| mean_count := 0; grand_total := 0; grand_mean := None |}.

(** The local variables of the loop of [get_dif]. *)
Record dif_locals : Type := mkLocals {
  time_diff : list float;
  temp_packet : option Packet;
  temp_direction : option PacketDirection
}.

(** [temp_direction == d], where [temp_direction] may still be [None]. *)
Definition is_direction (v : option PacketDirection) (d : PacketDirection)
  : bool :=
  match v with
  | Some d' => PacketDirection_eqb d' d
  | None => false
  end.

(** One iteration.  [temp_packet] is a packet whenever [temp_direction] is
    a direction (lemma [get_dif_loop_temps] below), so [temp_packet.time]
    is always defined where the source reads it and the [None] case of the
    inner match is never taken. *)
Definition get_dif_body (l : dif_locals) (item : Packet * PacketDirection)
  : dif_locals :=
  let '(packet, direction) := item in
  let time_diff' :=
    if is_direction (temp_direction l) FORWARD
       && PacketDirection_eqb direction REVERSE
    then match temp_packet l with
         | Some tp => time_diff l ++ [time packet - time tp]
         | None => time_diff l
         end
    else time_diff l in
  {| time_diff := time_diff';
     temp_packet := Some packet;
     temp_direction := Some direction |}.

Definition get_dif_loop (pkts : list (Packet * PacketDirection)) : dif_locals :=
  fold_left get_dif_body pkts
    {| time_diff := []; temp_packet := None; temp_direction := None |}.

Definition get_dif (self : Flow.t) : list float :=
  time_diff (get_dif_loop (Flow.packets self)).

Definition get_var (self : Flow.t) : float :=
  if negb (length (get_dif self) =? 0)%nat then Numpy.var (get_dif self)
  else -1.

Definition get_mean (self : Flow.t) : float :=
  if negb (length (get_dif self) =? 0)%nat then Numpy.mean (get_dif self)
  else -1.

Definition _get_grand_total (self : Flow.t) (st : ClassState)
  : float * ClassState :=
  let total :=
    if (mean_count st =? 0)%Z then get_mean self - get_mean self
    else grand_total st + get_mean self in
  let st' := {| mean_count := mean_count st + 1;
                grand_total := total;
                grand_mean := grand_mean st |} in
  (total, st').

(** The left operand of [/] (the call, which updates the class) is
    evaluated before the right one, which therefore reads the updated
    [mean_count].  When the division raises, [grand_mean] is not assigned. *)
Definition get_grand_mean (self : Flow.t) (st : ClassState)
  : Py.result float * ClassState :=
  let '(total, st1) := _get_grand_total self st in
  let divisor :=
    if (1 <? mean_count st)%Z then (mean_count st1 - 1)%Z
    else mean_count st1 in
  match Py.truediv total divisor with
  | Py.Ok g =>
      (Py.Ok g, {| mean_count := mean_count st1;
                   grand_total := grand_total st1;
                   grand_mean := Some g |})
  | Py.Raise e => (Py.Raise e, st1)
  end.

Definition get_median (self : Flow.t) : float :=
  Numpy.median (get_dif self).

Definition get_mode (self : Flow.t) : float :=
  if negb (length (get_dif self) =? 0)%nat then Scipy.mode (get_dif self)
  else -1.

Definition get_std (self : Flow.t) : float :=
  if negb (length (get_dif self) =? 0)%nat then Numpy.sqrt (get_var self)
  else -1.

Definition get_skew (self : Flow.t) : float :=
  let mean := get_mean self in
  let median := get_median self in
  let dif := 3 * (mean - median) in
  let std := get_std self in
  if Py.ne std 0 then dif / std else -10.

Definition get_skew2 (self : Flow.t) : float :=
  let mean := get_mean self in
  let mode := get_mode self in
  let dif := mean - mode in
  let std := get_std self in
  if Py.ne std 0 then dif / std else -10.

Definition get_cov (self : Flow.t) : float :=
  if Py.ne (get_mean self) 0 then get_std self / get_mean self else -1.

End TimeDiff.

(* ================================================================== *)
(** * The extraction rule in the specification's words *)

Module Spec.

(** The pairs of neighbours of a sequence, in order. *)
Fixpoint adjacent_pairs {A : Type} (l : list A) : list (A * A) :=
  match l with
  | a :: t => match t with
              | b :: _ => (a, b) :: adjacent_pairs t
              | [] => []
              end
  | [] => []
  end.

(** A Forward packet immediately followed by a Reverse packet. *)
Definition forward_then_reverse
  (pr : (Packet * PacketDirection) * (Packet * PacketDirection)) : bool :=
  PacketDirection_eqb (snd (fst pr)) FORWARD
  && PacketDirection_eqb (snd (snd pr)) REVERSE.

(** [reverse.timestamp - forward.timestamp] for each such pair. *)
Definition timing_series (pkts : list (Packet * PacketDirection)) : list float :=
  map (fun pr => time (fst (snd pr)) - time (fst (fst pr)))
      (filter forward_then_reverse (adjacent_pairs pkts)).

Definition has_forward_reverse (pkts : list (Packet * PacketDirection)) : bool :=
  existsb forward_then_reverse (adjacent_pairs pkts).

(** How often [y] occurs in a series, by [==]. *)
Definition occurrences (y : float) (a : list float) : nat :=
  List.length (filter (fun x => x =? y) a).

End Spec.

(* ================================================================== *)
(** * Concrete flows *)

Module Scenario.

Definition F (t : float) : Packet * PacketDirection := (mkPacket t, FORWARD).
Definition R (t : float) : Packet * PacketDirection := (mkPacket t, REVERSE).

Definition new_flow : Flow.t :=
  Flow.init ("10.0.0.2", "10.0.0.1", 51000, 443)%Z%string "enp0s3"%string.

Definition flow_of (l : list (Packet * PacketDirection)) : Flow.t :=
  Flow.add_packets new_flow l.

(** The end-to-end scenario of the specification. *)
Definition end_to_end : Flow.t := flow_of [F 0.0; R 0.1; F 0.2; R 0.5].

(** Flows whose timing means are 2.0, 4.0 and 6.0. *)
Definition flow_mean2 : Flow.t := flow_of [F 0; R 2].
Definition flow_mean4 : Flow.t := flow_of [F 0; R 4].
Definition flow_mean6 : Flow.t := flow_of [F 0; R 6].

(** One request and its answer: a series with a single delta. *)
Definition single_delta : Flow.t := flow_of [F 0.0; R 0.1].

(** A flow whose timing series is [1.0, 1.0, 2.0, 2.0]. *)
Definition tied_modes : Flow.t :=
  flow_of [F 0; R 1; F 2; R 3; F 4; R 6; F 7; R 9].

End Scenario.

(* ================================================================== *)
(** * Invariants and notions used in the proofs *)

Module Inv.
Import FloatOrder TimeDiff Spec.

(** The remembered packet and direction are set together. *)
Definition coherent (l : dif_locals) : Prop :=
  temp_packet l = None <-> temp_direction l = None.

(** The packet the loop remembers, as a sequence of at most one item. *)
Definition remembered (l : dif_locals) : list (Packet * PacketDirection) :=
  match temp_packet l, temp_direction l with
  | Some p, Some d => [(p, d)]
  | _, _ => []
  end.

(** A series without NaN, and the two orders on sorted data. *)
Definition no_nan (a : list float) : Prop := Forall not_nan a.

Definition ascending (a : list float) : Prop :=
  StronglySorted (fun u v => (u <=? v) = true) a.

Definition strictly_ascending (rl : list (float * nat)) : Prop :=
  StronglySorted (fun p q => (fst p <? fst q) = true) rl.

Record runs_ok (s : list float) (rl : list (float * nat)) : Prop := {
  runs_counts :
    Forall (fun p => In (fst p) s /\ snd p = occurrences (fst p) s) rl;
  runs_cover :
    forall y, In y s -> exists p, In p rl /\ (y =? fst p) = true;
  runs_strict : strictly_ascending rl
}.

(** Three calls of [get_grand_mean] in a row, threading the class
    attributes. *)
Definition three_calls (f1 f2 f3 : Flow.t) (st : ClassState) :=
  let r1 := get_grand_mean f1 st in
  let r2 := get_grand_mean f2 (snd r1) in
  let r3 := get_grand_mean f3 (snd r2) in
  (r1, r2, r3).

End Inv.

(* ================================================================== *)
(** * Further notions: signs, runs of calls, exchanges *)

Module Notions.
Import TimeDiff Spec.

(** A binary64 value that is not below zero: a NaN, a zero of either sign,
    or a positive number or infinity. *)
Definition nonneg (x : spec_float) : Prop :=
  match x with
  | S754_finite true _ _ | S754_infinity true => False
  | _ => True
  end.

(** A value whose sign bit, when it has one, is [s]. *)
Definition signed (s : bool) (x : spec_float) : Prop :=
  match x with
  | S754_nan => True
  | S754_zero s' | S754_infinity s' | S754_finite s' _ _ => s' = s
  end.

Definition fnonneg (x : float) : Prop := nonneg (Prim2SF x).

(** The last item of a sequence, as a sequence of at most one item. *)
Fixpoint last_item {A : Type} (l : list A) : list A :=
  match l with
  | [] => []
  | x :: t => match t with
              | [] => [x]
              | _ :: _ => last_item t
              end
  end.

(** A conversation of requests and their answers: each pair gives a
    Forward packet at its first time and a Reverse packet at its second. *)
Definition exchanges (l : list (float * float))
  : list (Packet * PacketDirection) :=
  flat_map (fun ab => [(mkPacket (fst ab), FORWARD);
                       (mkPacket (snd ab), REVERSE)]) l.

(** [get_grand_mean] called for each flow in turn. *)
Fixpoint grand_means (flows : list Flow.t) (st : ClassState)
  : list (Py.result float) * ClassState :=
  match flows with
  | [] => ([], st)
  | f :: t =>
      let r := get_grand_mean f st in
      let rs := grand_means t (snd r) in
      (fst r :: fst rs, snd rs)
  end.

End Notions.

(* ================================================================== *)
(** * Mean and population variance in the specification's words *)

Module SpecStats.

(** A floating-point sum of the items of an array: the items, and zeros,
    added in some order and some grouping. *)
Inductive float_sum : list float -> float -> Prop :=
| float_sum_zero : float_sum [] 0
| float_sum_neg_zero : float_sum [] (-0)
| float_sum_item (x : float) : float_sum [x] x
| float_sum_add (l1 l2 : list float) (s1 s2 : float) :
    float_sum l1 s1 -> float_sum l2 s2 -> float_sum (l1 ++ l2) (s1 + s2)
| float_sum_perm (l l' : list float) (s : float) :
    Permutation l l' -> float_sum l s -> float_sum l' s.

(** The number of items, as the nearest binary64 value. *)
Definition count (a : list float) : float :=
  SF2Prim (binary_normalize prec emax (Z.of_nat (List.length a)) 0 false).

(** An arithmetic mean: a sum of the items divided by their number. *)
Definition is_mean (a : list float) (m : float) : Prop :=
  exists s, float_sum a s /\ m = s / count a.

(** A population variance: a mean of the squared deviations from a mean. *)
Definition is_population_variance (a : list float) (v : float) : Prop :=
  exists m, is_mean a m
            /\ is_mean (map (fun x => (x - m) * (x - m)) a) v.

(** The same for a short array, with every operation written out: the
    items are added from left to right. *)
Definition short_sum (a : list float) : float :=
  PrimFloat.add 0 (fold_left PrimFloat.add a (-0)).

Definition short_mean (a : list float) : float :=
  PrimFloat.div (short_sum a) (count a).

Definition short_variance (a : list float) : float :=
  short_mean (map (fun x => PrimFloat.mul (PrimFloat.sub x (short_mean a))
                                          (PrimFloat.sub x (short_mean a))) a).

End SpecStats.

Module MoreScenarios.
Import Scenario.



End MoreScenarios.

Module ZeroNotions.



End ZeroNotions.

(* ================================================================== *)
(** * Facts about the comparisons *)

Module FloatOrderFacts.
Import FloatOrder.

Lemma lex3_not_Gt p q : lex3 p q <> Gt <-> lexle p q.
Proof.
  destruct p as [[a b] c], q as [[a' b'] c']; simpl.
  destruct (Z.compare_spec a a'); destruct (Z.compare_spec b b');
    destruct (Z.compare_spec c c'); split; intros H'; try lia;
    try congruence; try discriminate.
Qed.

Lemma SFcompare_key x y :
  x <> S754_nan -> y <> S754_nan ->
  SFcompare x y = Some (lex3 (key x) (key y)).
Proof.
  intros Hx Hy.
  destruct x as [sx|sx| |sx mx ex], y as [sy|sy| |sy my ey];
    try congruence;
    try destruct sx; try destruct sy; simpl; try reflexivity.
  rewrite Z.compare_opp.
  change (PosDef.Pos.compare_cont Eq mx my) with (Pos.compare mx my).
  rewrite (Z.compare_antisym ex ey).
  destruct (ex ?= ey)%Z; reflexivity.
Qed.

Lemma SFcompare_refl x : x <> S754_nan -> SFcompare x x = Some Eq.
Proof.
  intros Hx. rewrite SFcompare_key by assumption.
  destruct (key x) as [[a b] c]. simpl. now rewrite !Z.compare_refl.
Qed.

Lemma not_nan_spec x : not_nan x <-> Prim2SF x <> S754_nan.
Proof.
  unfold not_nan, is_nan. rewrite FloatAxioms.eqb_spec. unfold SFeqb.
  split.
  - intros H E. rewrite E in H. discriminate.
  - intros H. now rewrite SFcompare_refl.
Qed.

Lemma leb_lexle x y :
  not_nan x -> not_nan y -> ((x <=? y) = true <-> lexle (fkey x) (fkey y)).
Proof.
  intros Hx%not_nan_spec Hy%not_nan_spec.
  rewrite FloatAxioms.leb_spec. unfold SFleb. rewrite SFcompare_key by assumption.
  rewrite <- lex3_not_Gt. unfold fkey.
  destruct (lex3 _ _); split; congruence.
Qed.

Lemma ltb_negb_leb x y :
  not_nan x -> not_nan y -> (x <? y) = negb (y <=? x).
Proof.
  intros Hx%not_nan_spec Hy%not_nan_spec.
  rewrite FloatAxioms.ltb_spec, FloatAxioms.leb_spec. unfold SFltb, SFleb.
  rewrite !SFcompare_key by assumption.
  destruct (key (Prim2SF x)) as [[a b] c], (key (Prim2SF y)) as [[a' b'] c'].
  simpl.
  rewrite (Z.compare_antisym a a'), (Z.compare_antisym b b'),
    (Z.compare_antisym c c').
  destruct (a ?= a')%Z, (b ?= b')%Z, (c ?= c')%Z; reflexivity.
Qed.

Lemma eqb_leb_leb x y :
  not_nan x -> not_nan y -> (x =? y) = (x <=? y) && (y <=? x).
Proof.
  intros Hx%not_nan_spec Hy%not_nan_spec.
  rewrite FloatAxioms.eqb_spec, !FloatAxioms.leb_spec. unfold SFeqb, SFleb.
  rewrite !SFcompare_key by assumption.
  destruct (key (Prim2SF x)) as [[a b] c], (key (Prim2SF y)) as [[a' b'] c'].
  simpl.
  rewrite (Z.compare_antisym a a'), (Z.compare_antisym b b'),
    (Z.compare_antisym c c').
  destruct (a ?= a')%Z, (b ?= b')%Z, (c ?= c')%Z; reflexivity.
Qed.

Lemma leb_refl x : not_nan x -> (x <=? x) = true.
Proof.
  intros Hx. apply leb_lexle; try assumption.
  destruct (fkey x) as [[a b] c]. simpl. lia.
Qed.

Lemma leb_trans x y z :
  not_nan x -> not_nan y -> not_nan z ->
  (x <=? y) = true -> (y <=? z) = true -> (x <=? z) = true.
Proof.
  intros Hx Hy Hz Hxy Hyz.
  apply leb_lexle in Hxy; try assumption.
  apply leb_lexle in Hyz; try assumption.
  apply leb_lexle; try assumption.
  destruct (fkey x) as [[a b] c], (fkey y) as [[a' b'] c'],
    (fkey z) as [[a'' b''] c'']. simpl in *. lia.
Qed.

Lemma leb_total x y :
  not_nan x -> not_nan y -> (x <=? y) = false -> (y <=? x) = true.
Proof.
  intros Hx Hy Hxy.
  apply leb_lexle; try assumption.
  assert (~ lexle (fkey x) (fkey y)) as Hn.
  { intros H. apply leb_lexle in H; try assumption. congruence. }
  destruct (fkey x) as [[a b] c], (fkey y) as [[a' b'] c']. simpl in *. lia.
Qed.

Lemma ltb_leb x y :
  not_nan x -> not_nan y -> (x <? y) = true -> (x <=? y) = true.
Proof.
  intros Hx Hy H. rewrite ltb_negb_leb in H by assumption.
  apply leb_total; try assumption.
  now apply negb_true_iff.
Qed.

Lemma leb_false_lexle x y :
  not_nan x -> not_nan y -> ((x <=? y) = false <-> ~ lexle (fkey x) (fkey y)).
Proof.
  intros Hx Hy. rewrite <- (leb_lexle x y Hx Hy).
  destruct (x <=? y); split; congruence.
Qed.

(** Decides a goal about [<=?], [<?] and [=?] on floats known not to be
    NaN, by going to the keys. *)
Ltac to_keys :=
  repeat match goal with
    | H : context [(?x <? ?y)] |- _ => rewrite (ltb_negb_leb x y) in H by assumption
    | |- context [(?x <? ?y)] => rewrite (ltb_negb_leb x y) by assumption
    | H : context [(?x =? ?y)] |- _ => rewrite (eqb_leb_leb x y) in H by assumption
    | |- context [(?x =? ?y)] => rewrite (eqb_leb_leb x y) by assumption
    end;
  rewrite ?negb_true_iff, ?negb_false_iff, ?andb_true_iff, ?andb_false_iff in *;
  repeat match goal with
    | H : context [(?x <=? ?y) = true] |- _ => rewrite (leb_lexle x y) in H by assumption
    | |- context [(?x <=? ?y) = true] => rewrite (leb_lexle x y) by assumption
    | H : context [(?x <=? ?y) = false] |- _ => rewrite (leb_false_lexle x y) in H by assumption
    | |- context [(?x <=? ?y) = false] => rewrite (leb_false_lexle x y) by assumption
    end.

Ltac float_order :=
  to_keys;
  repeat match goal with
    | |- context [fkey ?x] =>
        let k := fresh "k" in
        set (k := fkey x) in *; clearbody k; destruct k as [[? ?] ?]
    | H : context [fkey ?x] |- _ =>
        let k := fresh "k" in
        set (k := fkey x) in *; clearbody k; destruct k as [[? ?] ?]
    end;
  unfold lexle in *; lia.

Section Order.
Variables x y z : float.
Hypothesis (Hx : not_nan x) (Hy : not_nan y) (Hz : not_nan z).

Lemma eqb_refl : (x =? x) = true.
Proof. float_order. Qed.

Lemma eqb_sym : (x =? y) = (y =? x).
Proof. rewrite !eqb_leb_leb by assumption. apply andb_comm. Qed.

Lemma eqb_same_occurrence : (x =? y) = true -> (z =? x) = (z =? y).
Proof.
  intros H. destruct (z =? x) eqn:E1, (z =? y) eqn:E2; try reflexivity;
    exfalso; float_order.
Qed.

Lemma eqb_ltb_ne : (x =? y) = true -> (y <? z) = true -> (x =? z) = false.
Proof. intros H1 H2. float_order. Qed.

Lemma ne_leb_ne : (x <=? y) = true -> (x =? y) = false -> (y <=? z) = true -> (z =? x) = false.
Proof. intros H1 H2 H3. float_order. Qed.

Lemma ne_leb_ltb : (x <=? y) = true -> (x =? y) = false -> (x <? y) = true.
Proof. intros H1 H2. float_order. Qed.

Lemma eqb_ltb_ltb : (x =? y) = true -> (y <? z) = true -> (x <? z) = true.
Proof. intros H1 H2. float_order. Qed.

Lemma ltb_eqb_leb : (x <? y) = true -> (z =? y) = true -> (x <=? z) = true.
Proof. intros H1 H2. float_order. Qed.

Lemma eqb_leb : (y =? x) = true -> (x <=? y) = true.
Proof. intros H1. float_order. Qed.

Lemma ltb_false_leb : (x <? y) = false -> (y <=? x) = true.
Proof. intros H1. float_order. Qed.

End Order.

(** Two floats that [==] tells apart are different values. *)
Lemma eqb_false_neq (x y : float) :
  (x =? y) = false -> (y =? y) = true -> x <> y.
Proof. intros H Hy E. rewrite E in H. congruence. Qed.

End FloatOrderFacts.

(* ================================================================== *)
(** * The numpy operations *)

Module NumpyFacts.
Import Numpy.

(** The fuel of [pairwise_sum] is never used up: [sum] gives it the length
    of the array, and each split at least halves the length. *)
Lemma pairwise_sum_fuel fuel : forall fuel' a,
  (List.length a <= fuel)%nat -> (List.length a <= fuel')%nat ->
  pairwise_sum fuel a = pairwise_sum fuel' a.
Proof.
  induction fuel as [|fuel IH]; intros fuel' a H H'.
  - destruct a; [| simpl in H; lia]. now destruct fuel'.
  - destruct fuel' as [|fuel'].
    + destruct a; [reflexivity | simpl in H'; lia].
    + cbn [pairwise_sum].
      destruct (Nat.ltb_spec (List.length a) 8); [reflexivity |].
      destruct (Nat.leb_spec (List.length a) 128); [reflexivity |].
      set (n := List.length a) in *.
      assert (1 <= n / 2 - (n / 2) mod 8 < n)%nat as Hn2.
      { pose proof (Nat.mod_upper_bound (n / 2) 8).
        pose proof (Nat.Div0.div_lt_upper_bound n 2 n).
        assert (64 <= n / 2)%nat by (apply Nat.div_le_lower_bound; lia).
        lia. }
      f_equal; apply IH; rewrite ?length_firstn, ?length_skipn; fold n; lia.
Qed.

(** Short arrays, as the timing series of the scenarios below. *)
Example sum_two (a b : float) : sum [a; b] = 0 + ((-0 + a) + b).
Proof. reflexivity. Qed.

Example median_odd : median [3; 1; 2] = 2.
Proof. vm_compute. reflexivity. Qed.

Example median_even : median [4; 1; 3; 2] = 2.5.
Proof. vm_compute. reflexivity. Qed.

Example unique_counts_example :
  unique_counts [2; 1; 2; 1; 3] = [(1, 2%nat); (2, 2%nat); (3, 1%nat)].
Proof. vm_compute. reflexivity. Qed.

End NumpyFacts.

(* ================================================================== *)
(** * The loop of [get_dif] *)

Module DifFacts.
Import TimeDiff Spec Inv.

Lemma get_dif_body_coherent l item : coherent (get_dif_body l item).
Proof.
  destruct item as [packet direction]. unfold coherent. simpl.
  split; discriminate.
Qed.

Lemma get_dif_loop_temps pkts l :
  coherent l -> coherent (fold_left get_dif_body pkts l).
Proof.
  revert l. induction pkts as [|item pkts IH]; intros l Hl; simpl.
  - exact Hl.
  - apply IH, get_dif_body_coherent.
Qed.

(** [adjacent_pairs] lists each item with its successor, in order. *)
Lemma adjacent_pairs_nth {A : Type} (l : list A) : forall i : nat,
  nth_error (adjacent_pairs l) i =
  match nth_error l i, nth_error l (S i) with
  | Some a, Some b => Some (a, b)
  | _, _ => None
  end.
Proof.
  induction l as [|a t IH]; intros i.
  - now destruct i.
  - destruct t as [|b t'].
    + destruct i as [|[|i]]; reflexivity.
    + destruct i as [|i]; [reflexivity |].
      change (adjacent_pairs (a :: b :: t'))
        with ((a, b) :: adjacent_pairs (b :: t')).
      cbn [nth_error]. rewrite IH. reflexivity.
Qed.

Lemma timing_series_cons2 a b pkts :
  timing_series (a :: b :: pkts) =
  (if forward_then_reverse (a, b) then [time (fst b) - time (fst a)] else [])
  ++ timing_series (b :: pkts).
Proof.
  unfold timing_series. cbn [adjacent_pairs filter].
  destruct (forward_then_reverse (a, b)); reflexivity.
Qed.

Lemma timing_series_single a : timing_series [a] = [].
Proof. reflexivity. Qed.

Lemma fold_get_dif_body pkts : forall l,
  coherent l ->
  time_diff (fold_left get_dif_body pkts l) =
  time_diff l ++ timing_series (remembered l ++ pkts).
Proof.
  induction pkts as [|item pkts IH]; intros l Hl.
  - simpl. rewrite app_nil_r.
    unfold remembered.
    destruct (temp_packet l), (temp_direction l); simpl;
      now rewrite ?timing_series_single, app_nil_r.
  - cbn [fold_left]. rewrite IH by apply get_dif_body_coherent.
    destruct Hl as [H1 H2]. destruct item as [packet direction].
    unfold remembered at 1. cbn [get_dif_body temp_packet temp_direction app time_diff].
    unfold remembered.
    destruct (temp_packet l) as [tp|], (temp_direction l) as [td|].
    + cbn [app]. rewrite (timing_series_cons2 (tp, td)).
      rewrite app_assoc. f_equal.
      destruct td, direction; cbn; now rewrite ?app_nil_r.
    + now specialize (H2 eq_refl).
    + now specialize (H1 eq_refl).
    + reflexivity.
Qed.

(** The loop computes the series of the specification. *)
Lemma get_dif_timing_series self :
  get_dif self = timing_series (Flow.packets self).
Proof.
  unfold get_dif, get_dif_loop.
  rewrite fold_get_dif_body by (split; reflexivity).
  reflexivity.
Qed.

Lemma timing_series_nil_iff pkts :
  timing_series pkts = [] <-> has_forward_reverse pkts = false.
Proof.
  unfold timing_series, has_forward_reverse.
  induction (adjacent_pairs pkts) as [|pr l IH]; simpl.
  - split; reflexivity.
  - destruct (forward_then_reverse pr); simpl.
    + split; discriminate.
    + exact IH.
Qed.

Lemma short_flow_no_transition pkts :
  (List.length pkts < 2)%nat -> has_forward_reverse pkts = false.
Proof.
  destruct pkts as [|a [|b pkts]]; simpl; try reflexivity; lia.
Qed.

Lemma get_dif_nil_iff self :
  get_dif self = [] <-> has_forward_reverse (Flow.packets self) = false.
Proof. rewrite get_dif_timing_series. apply timing_series_nil_iff. Qed.

(** What the statistics are on an empty series. *)
Lemma empty_mean self : get_dif self = [] -> get_mean self = -1.
Proof. unfold get_mean. now intros ->. Qed.

Lemma empty_var self : get_dif self = [] -> get_var self = -1.
Proof. unfold get_var. now intros ->. Qed.

Lemma empty_std self : get_dif self = [] -> get_std self = -1.
Proof. unfold get_std. now intros ->. Qed.

Lemma empty_mode self : get_dif self = [] -> get_mode self = -1.
Proof. unfold get_mode. now intros ->. Qed.

Lemma nonempty_guard (a : list float) :
  a <> [] -> negb (List.length a =? 0)%nat = true.
Proof. destruct a; [congruence | reflexivity]. Qed.

End DifFacts.

(* ================================================================== *)
(** * Flow.add_packet *)

Module FlowFacts.
Import FloatOrder FloatOrderFacts.

Lemma max_pair x y : Py.max x [y] = if x <? y then y else x.
Proof. reflexivity. Qed.

Lemma max_pair_upper x y :
  not_nan x -> not_nan y ->
  (x <=? Py.max x [y]) = true /\ (y <=? Py.max x [y]) = true.
Proof.
  intros Hx Hy. rewrite max_pair.
  destruct (x <? y) eqn:E.
  - split; [now apply ltb_leb | now apply leb_refl].
  - split; [now apply leb_refl |].
    rewrite ltb_negb_leb in E by assumption.
    now apply negb_false_iff in E.
Qed.

Lemma max_pair_not_nan x y : not_nan x -> not_nan y -> not_nan (Py.max x [y]).
Proof. intros Hx Hy. rewrite max_pair. now destruct (x <? y). Qed.

(** Packets added one after the other stay in the order of arrival. *)
Lemma add_packets_packets l : forall self,
  Flow.packets (Flow.add_packets self l) = Flow.packets self ++ l.
Proof.
  induction l as [|[p d] l IH]; intros self.
  - simpl. now rewrite app_nil_r.
  - unfold Flow.add_packets in *. cbn [fold_left fst snd].
    rewrite IH. cbn [Flow.add_packet Flow.packets].
    now rewrite <- app_assoc.
Qed.

(** Over any run of packets without NaN timestamps the latest timestamp
    does not decrease. *)
Lemma add_packets_latest l : forall self,
  not_nan (Flow.latest_timestamp self) ->
  Forall (fun pd => not_nan (time (fst pd))) l ->
  not_nan (Flow.latest_timestamp (Flow.add_packets self l)) /\
  (Flow.latest_timestamp self <=? Flow.latest_timestamp (Flow.add_packets self l)) = true.
Proof.
  induction l as [|[p d] l IH]; intros self Hs Hl.
  - simpl. split; [assumption | now apply leb_refl].
  - inversion Hl as [|? ? Hp Hl']; subst. cbn [fst] in Hp.
    unfold Flow.add_packets in *. cbn [fold_left fst snd].
    assert (not_nan (Flow.latest_timestamp (Flow.add_packet self p d))) as Hn
      by (now apply max_pair_not_nan).
    destruct (IH _ Hn Hl') as [IH1 IH2]. split; [assumption |].
    apply leb_trans with (y := Flow.latest_timestamp (Flow.add_packet self p d));
      try assumption.
    now apply (max_pair_upper (time p) (Flow.latest_timestamp self)).
Qed.

End FlowFacts.

(* ================================================================== *)
(** * Sorting, runs and the mode *)

Module ModeFacts.
Import FloatOrder FloatOrderFacts Numpy Spec Inv.

Lemma lt_number a b : not_nan a -> not_nan b -> lt a b = (a <? b).
Proof.
  intros Ha Hb. unfold lt. unfold not_nan in Hb. rewrite Hb.
  now rewrite andb_false_l, orb_false_r.
Qed.

Lemma same_number a b : not_nan a -> same a b = (a =? b).
Proof.
  intros Ha. unfold same. unfold not_nan in Ha. rewrite Ha.
  now rewrite andb_false_l, orb_false_r.
Qed.

Lemma insert_Forall (P : float -> Prop) x l :
  P x -> Forall P l -> Forall P (insert x l).
Proof.
  intros Hx Hl. induction Hl as [|h t Hh Ht IH]; simpl.
  - now constructor.
  - destruct (lt h x); repeat constructor; assumption.
Qed.

Lemma sort_Forall (P : float -> Prop) a : Forall P a -> Forall P (sort a).
Proof.
  induction 1 as [|x t Hx Ht IH]; simpl; [constructor |].
  now apply insert_Forall.
Qed.

Lemma In_insert z x l : In z (insert x l) <-> z = x \/ In z l.
Proof.
  induction l as [|h t IH]; simpl.
  - intuition congruence.
  - destruct (lt h x); simpl; rewrite ?IH; intuition congruence.
Qed.

Lemma In_sort z a : In z (sort a) <-> In z a.
Proof.
  induction a as [|x t IH]; simpl; [reflexivity |].
  rewrite In_insert, IH. intuition congruence.
Qed.

Lemma occurrences_cons y x l :
  occurrences y (x :: l) =
  ((if (x =? y)%float then 1 else 0) + occurrences y l)%nat.
Proof. unfold occurrences. simpl. now destruct (x =? y). Qed.

Lemma occurrences_insert y x l :
  occurrences y (insert x l) = occurrences y (x :: l).
Proof.
  induction l as [|h t IH]; simpl; [reflexivity |].
  destruct (lt h x); [| reflexivity].
  rewrite !occurrences_cons in *. rewrite IH. lia.
Qed.

Lemma occurrences_sort y a : occurrences y (sort a) = occurrences y a.
Proof.
  induction a as [|x t IH]; simpl; [reflexivity |].
  now rewrite occurrences_insert, !occurrences_cons, IH.
Qed.

Lemma occurrences_same_value y y' a :
  not_nan y -> not_nan y' -> no_nan a ->
  (y =? y') = true -> occurrences y a = occurrences y' a.
Proof.
  intros Hy Hy' Ha E. induction Ha as [|x t Hx Ht IH]; [reflexivity |].
  rewrite !occurrences_cons, IH.
  now rewrite (eqb_same_occurrence y y' x Hy Hy' Hx E).
Qed.

Lemma occurrences_none y a :
  Forall (fun z => (z =? y) = false) a -> occurrences y a = 0%nat.
Proof.
  induction 1 as [|x t Hx Ht IH]; [reflexivity |].
  now rewrite occurrences_cons, Hx, IH.
Qed.

Lemma insert_ascending x l :
  not_nan x -> no_nan l -> ascending l -> ascending (insert x l).
Proof.
  intros Hx Hl Hs. induction Hs as [|h t Hs IH Hh]; simpl.
  - repeat constructor.
  - inversion Hl as [|? ? Hnh Hnt]; subst.
    rewrite lt_number by assumption.
    destruct (h <? x) eqn:E.
    + constructor; [now apply IH |].
      apply insert_Forall; [now apply ltb_leb | assumption].
    + assert ((x <=? h) = true) as Hxh by (now apply ltb_false_leb).
      constructor; [now constructor |].
      constructor; [assumption |].
      rewrite Forall_forall in *. intros z Hz.
      apply leb_trans with (y := h); auto.
Qed.

Lemma sort_ascending a : no_nan a -> ascending (sort a).
Proof.
  induction 1 as [|x t Hx Ht IH]; simpl; [constructor |].
  apply insert_ascending; try assumption. now apply sort_Forall.
Qed.

(** ** The runs of a sorted array *)

Lemma runs_nil s : runs s = [] -> s = [].
Proof.
  destruct s as [|x t]; [reflexivity |]. simpl.
  destruct (runs t) as [|[y c] r]; [discriminate |].
  destruct (same x y); discriminate.
Qed.

Lemma runs_head s v c r : runs s = (v, c) :: r -> exists s', s = v :: s'.
Proof.
  destruct s as [|x t]; [discriminate |]. simpl.
  destruct (runs t) as [|[y c'] r'].
  - intros H. exists t. f_equal.
    exact (f_equal (fun l => match l with p :: _ => fst p | [] => x end) H).
  - destruct (same x y); intros H; exists t; f_equal;
      exact (f_equal (fun l => match l with p :: _ => fst p | [] => x end) H).
Qed.

Lemma runs_spec s : no_nan s -> ascending s -> runs_ok s (runs s).
Proof.
  induction s as [|x t IH]; intros Hn Hs.
  - split; [constructor | intros y [] | constructor].
  - inversion Hn as [|? ? Hx Hnt]; subst.
    inversion Hs as [|? ? Hst Hxt]; subst.
    specialize (IH Hnt Hst). simpl.
    assert ((x =? x) = true) as Hxx by (now apply eqb_refl).
    destruct (runs t) as [|[y c] r] eqn:E.
    + apply runs_nil in E. subst t.
      split.
      * constructor; [| constructor]. cbn [fst snd]. split; [now left |].
        now rewrite occurrences_cons, Hxx.
      * intros z [<- | []]. exists (x, 1%nat). split; [now left | exact Hxx].
      * repeat constructor.
    + destruct (runs_head _ _ _ _ E) as [t' ->].
      destruct IH as [IHc IHv IHs].
      inversion Hnt as [|? ? Hy Hnt']; subst.
      assert ((x <=? y) = true) as Hxy by (now inversion Hxt).
      assert (forall z, In z (y :: t') -> not_nan z) as Hnz
        by (now apply Forall_forall).
      assert (forall z, In z (y :: t') -> (y <=? z) = true) as Hyz.
      { intros z [<- | Hz]; [now apply leb_refl |].
        inversion Hst as [|? ? _ Hyt]; subst.
        rewrite Forall_forall in Hyt. now apply Hyt. }
      destruct (Forall_inv IHc) as [_ Hc]. cbn [fst snd] in Hc.
      pose proof (Forall_inv_tail IHc) as IHr.
      destruct (StronglySorted_inv IHs) as [IHsr IHyr]. cbn [fst] in IHyr.
      rewrite Forall_forall in IHr, IHyr.
      rewrite same_number by assumption.
      destruct (x =? y) eqn:Exy.
      * split.
        -- constructor.
           ++ cbn [fst snd]. split; [now left |].
              rewrite occurrences_cons, Hxx.
              rewrite (occurrences_same_value x y) by assumption.
              now rewrite <- Hc.
           ++ apply Forall_forall. intros p Hp.
              destruct (IHr p Hp) as [Hin Hcnt].
              split; [now right |].
              rewrite occurrences_cons.
              rewrite (eqb_ltb_ne x y (fst p)); auto.
        -- intros z [<- | Hz].
           ++ exists (x, S c). split; [now left | exact Hxx].
           ++ destruct (IHv z Hz) as (p & [<- | Hp] & Hzp).
              ** exists (x, S c). split; [now left |].
                 cbn [fst] in *.
                 rewrite (eqb_same_occurrence x y z); auto.
              ** exists p. split; [now right | exact Hzp].
        -- constructor; [assumption |].
           apply Forall_forall. intros p Hp. simpl.
           destruct (IHr p Hp) as [Hin _].
           apply (eqb_ltb_ltb x y (fst p)); auto.
      * assert (forall z, In z (y :: t') -> (z =? x) = false) as Hzx.
        { intros z Hz. apply (ne_leb_ne x y z); auto. }
        split.
        -- constructor.
           ++ cbn [fst snd]. split; [now left |].
              rewrite occurrences_cons, Hxx, occurrences_none; [reflexivity |].
              apply Forall_forall. exact Hzx.
           ++ apply Forall_forall. intros p Hp.
              assert (In (fst p) (y :: t') /\ snd p = occurrences (fst p) (y :: t'))
                as [Hin Hcnt].
              { rewrite Forall_forall in IHc. now apply IHc. }
              split; [now right |].
              rewrite occurrences_cons.
              rewrite (eqb_sym x (fst p)), (Hzx _ Hin); auto.
        -- intros z [<- | Hz].
           ++ exists (x, 1%nat). split; [now left | exact Hxx].
           ++ destruct (IHv z Hz) as (p & Hp & Hzp).
              exists p. split; [now right | exact Hzp].
        -- constructor; [assumption |].
           apply Forall_forall. intros p Hp. simpl.
           assert (In (fst p) (y :: t')) as Hin.
           { rewrite Forall_forall in IHc. now apply IHc. }
           apply (ne_leb_ltb x (fst p)); auto.
           ++ apply leb_trans with (y := y); auto.
           ++ rewrite (eqb_sym x (fst p)); auto.
Qed.

(** ** The first largest count *)

Lemma argmax_none l : argmax l = None -> l = [].
Proof.
  destruct l as [|p t]; [reflexivity |]. simpl.
  destruct (argmax t) as [q|]; [| discriminate].
  destruct (snd p <? snd q)%nat; discriminate.
Qed.

Lemma argmax_split l : forall q,
  argmax l = Some q ->
  exists l1 l2,
    l = l1 ++ q :: l2
    /\ Forall (fun p => (snd p < snd q)%nat) l1
    /\ Forall (fun p => (snd p <= snd q)%nat) l2.
Proof.
  induction l as [|p t IH]; intros q; simpl; [discriminate |].
  destruct (argmax t) as [q'|] eqn:E.
  - destruct (IH q' eq_refl) as (l1 & l2 & Ht & H1 & H2).
    destruct (Nat.ltb_spec (snd p) (snd q')) as [Hlt|Hge]; intros H;
      assert (q = match Some q with Some u => u | None => p end) as Hq
        by reflexivity; rewrite <- H in Hq; subst q.
    + exists (p :: l1), l2. split; [now rewrite Ht |].
      split; [now constructor | assumption].
    + exists [], t. split; [reflexivity |]. split; [constructor |].
      rewrite Ht. apply Forall_app. split.
      * eapply Forall_impl; [| exact H1]. simpl. intros; lia.
      * constructor; [lia |].
        eapply Forall_impl; [| exact H2]. simpl. intros; lia.
  - apply argmax_none in E. subst t. intros H.
    assert (q = match Some q with Some u => u | None => p end) as Hq
      by reflexivity. rewrite <- H in Hq. subst q.
    exists [], []. repeat split; constructor.
Qed.

Lemma StronglySorted_app_r {A} (R : A -> A -> Prop) l1 l2 :
  StronglySorted R (l1 ++ l2) -> StronglySorted R l2.
Proof.
  induction l1 as [|a l1 IH]; simpl; [auto |].
  intros H. inversion H; subst. auto.
Qed.

(** ** [scipy.stats.mode] on a series without NaN *)

Lemma mode_spec (a : list float) :
  a <> [] -> no_nan a ->
  In (Scipy.mode a) a
  /\ (forall y, In y a -> (occurrences y a <= occurrences (Scipy.mode a) a)%nat)
  /\ (forall y, In y a ->
        occurrences y a = occurrences (Scipy.mode a) a ->
        (Scipy.mode a <=? y) = true).
Proof.
  intros Hne Hn.
  assert (no_nan (sort a)) as Hns by (now apply sort_Forall).
  destruct (runs_spec (sort a) Hns (sort_ascending a Hn)) as [Hc Hv Hs].
  unfold no_nan in Hns, Hn.
  unfold Scipy.mode, unique_counts.
  destruct (argmax (runs (sort a))) as [[m c]|] eqn:E.
  2:{ apply argmax_none, runs_nil in E. exfalso.
      destruct a as [|x t]; [congruence |].
      assert (In x (sort (x :: t))) as Hin by (apply In_sort; now left).
      rewrite E in Hin. exact Hin. }
  destruct (argmax_split _ _ E) as (l1 & l2 & Hr & H1 & H2).
  rewrite Hr in Hc, Hv, Hs. simpl in H1, H2.
  assert (In m (sort a) /\ c = occurrences m (sort a)) as [Hm Hcm].
  { rewrite Forall_forall in Hc. apply (Hc (m, c)).
    apply in_or_app. right. now left. }
  assert (not_nan m) as Hnm by (rewrite Forall_forall in Hns; auto).
  rewrite occurrences_sort in Hcm.
  assert (forall y, In y a ->
            exists p, In p (l1 ++ (m, c) :: l2)
                      /\ (y =? fst p) = true
                      /\ snd p = occurrences y a
                      /\ not_nan y /\ not_nan (fst p)) as Hcover.
  { intros y Hy. apply In_sort in Hy.
    destruct (Hv y Hy) as (p & Hp & Hyp).
    exists p. split; [exact Hp |]. split; [exact Hyp |].
    rewrite Forall_forall in Hc. destruct (Hc p Hp) as [Hin Hcnt].
    rewrite Forall_forall in Hns.
    rewrite Hcnt, occurrences_sort.
    split; [| split; auto].
    symmetry. apply occurrences_same_value; auto. }
  rewrite Forall_forall in H1, H2.
  split; [now apply In_sort |]. split.
  - intros y Hy. destruct (Hcover y Hy) as (p & Hp & _ & Hcnt & _).
    rewrite <- Hcnt, <- Hcm.
    apply in_app_or in Hp. destruct Hp as [Hp | [<- | Hp]].
    + specialize (H1 p Hp). lia.
    + simpl. lia.
    + now apply H2.
  - intros y Hy Heq.
    destruct (Hcover y Hy) as (p & Hp & Hyp & Hcnt & Hny & Hnp).
    apply in_app_or in Hp. destruct Hp as [Hp | [<- | Hp]].
    + specialize (H1 p Hp). lia.
    + simpl in Hyp. now apply eqb_leb.
    + apply StronglySorted_app_r in Hs.
      inversion Hs as [|? ? _ Hml]; subst.
      rewrite Forall_forall in Hml. specialize (Hml p Hp). simpl in Hml.
      now apply (ltb_eqb_leb m (fst p) y).
Qed.

End ModeFacts.

(* ================================================================== *)
(** * The class attributes across a call *)

Module GrandMeanFacts.
Import TimeDiff.

Lemma get_grand_mean_unfold (self : Flow.t) (st : ClassState) :
  let total :=
    if (mean_count st =? 0)%Z then get_mean self - get_mean self
    else grand_total st + get_mean self in
  let divisor :=
    if (1 <? mean_count st)%Z then mean_count st else (mean_count st + 1)%Z in
  fst (get_grand_mean self st) = Py.truediv total divisor
  /\ mean_count (snd (get_grand_mean self st)) = (mean_count st + 1)%Z
  /\ grand_total (snd (get_grand_mean self st)) = total.
Proof.
  cbn zeta. unfold get_grand_mean, _get_grand_total.
  cbn [mean_count grand_total].
  replace (mean_count st + 1 - 1)%Z with (mean_count st) by lia.
  set (total := if (mean_count st =? 0)%Z then _ else _).
  set (divisor := if (1 <? mean_count st)%Z then _ else _).
  destruct (Py.truediv total divisor); repeat split; reflexivity.
Qed.

End GrandMeanFacts.

(* ================================================================== *)
(** * Signs of the results of the arithmetic *)

Module SignFacts.
Import Notions.

Lemma signed_nonneg x : signed false x -> nonneg x.
Proof. destruct x as [s|s| |s m e]; simpl; try tauto; now intros ->. Qed.

Lemma binary_round_aux_signed sx mx ex lx :
  signed sx (binary_round_aux prec emax sx mx ex lx).
Proof.
  unfold binary_round_aux.
  destruct (shr_fexp prec emax mx ex lx) as [mrs' e'].
  destruct (shr_fexp prec emax _ e' loc_Exact) as [mrs'' e''].
  destruct (shr_m mrs'') as [|m|m]; [reflexivity | | exact I].
  destruct (e'' <=? emax - prec)%Z; reflexivity.
Qed.

Lemma binary_round_signed sx mx ex :
  signed sx (binary_round prec emax sx mx ex).
Proof.
  unfold binary_round. destruct (shl_align _ _ _) as [mz ez].
  apply binary_round_aux_signed.
Qed.

Lemma binary_normalize_signed m e :
  (0 <= m)%Z -> signed false (binary_normalize prec emax m e false).
Proof.
  intros Hm. destruct m as [|p|p]; simpl; try reflexivity.
  - apply binary_round_signed.
  - lia.
Qed.

Lemma SFadd_nonneg x y :
  nonneg x -> nonneg y -> nonneg (SFadd prec emax x y).
Proof.
  destruct x as [sx|sx| |sx mx ex], y as [sy|sy| |sy my ey];
    try destruct sx; try destruct sy; simpl; try tauto.
  intros _ _. apply signed_nonneg.
  apply (binary_normalize_signed (Z.pos _ + Z.pos _)). lia.
Qed.

Lemma SFmul_self_nonneg x : nonneg (SFmul prec emax x x).
Proof.
  destruct x as [s|s| |s m e]; try destruct s; simpl; try tauto;
    apply signed_nonneg; apply binary_round_aux_signed.
Qed.

Lemma SFdiv_nonneg x d :
  nonneg x -> signed false d -> nonneg (SFdiv prec emax x d).
Proof.
  destruct x as [sx|sx| |sx mx ex], d as [sd|sd| |sd md ed];
    try destruct sx; simpl; try tauto; try (intros _ ->; simpl; tauto).
  intros _ ->. destruct (SFdiv_core_binary _ _ _ _ _ _) as [[mz ez] lz].
  apply signed_nonneg. apply binary_round_aux_signed.
Qed.

Lemma SFsqrt_nonneg x : nonneg (SFsqrt prec emax x).
Proof.
  destruct x as [s|s| |s m e]; try destruct s; simpl; try tauto.
  destruct (SFsqrt_core_binary _ _ _ _) as [[mz ez] lz].
  apply signed_nonneg. apply binary_round_aux_signed.
Qed.

Lemma add_fnonneg x y : fnonneg x -> fnonneg y -> fnonneg (x + y).
Proof. unfold fnonneg. rewrite add_spec. apply SFadd_nonneg. Qed.

Lemma mul_self_fnonneg x : fnonneg (x * x).
Proof. unfold fnonneg. rewrite mul_spec. apply SFmul_self_nonneg. Qed.

Lemma sqrt_fnonneg x : fnonneg (sqrt x).
Proof. unfold fnonneg. rewrite sqrt_spec. apply SFsqrt_nonneg. Qed.

Lemma div_fnonneg x d :
  fnonneg x -> signed false (Prim2SF d) -> fnonneg (x / d).
Proof. unfold fnonneg. rewrite div_spec. apply SFdiv_nonneg. Qed.

(** The float of a natural number has a clear sign bit. *)
Lemma of_nat_signed n : signed false (Prim2SF (Numpy.of_nat n)).
Proof.
  unfold Numpy.of_nat, Py.of_Z.
  pose proof (binary_normalize_signed (Z.of_nat n) 0 (Zle_0_nat n)) as H.
  destruct (binary_normalize prec emax (Z.of_nat n) 0 false)
    as [s|s| |s m e]; simpl in H; subst; try (vm_compute; reflexivity).
  unfold SF2Prim, Z.ldexp.
  rewrite ldshiftexp_spec, of_uint63_spec.
  set (k := Uint63Axioms.to_Z _).
  assert (0 <= k)%Z as Hk by (subst k; apply Uint63.to_Z_bounded).
  pose proof (binary_normalize_signed k 0 Hk) as H.
  destruct (binary_normalize prec emax k 0 false) as [s|s| |s m' e'];
    simpl in *; try assumption.
  subst s. apply binary_round_signed.
Qed.

(** A value that is not below zero does not test below zero, and is not
    the sentinel -1. *)
Lemma fnonneg_ltb x : fnonneg x -> (x <? 0) = false.
Proof.
  unfold fnonneg. rewrite FloatAxioms.ltb_spec.
  change (Prim2SF 0) with (S754_zero false).
  destruct (Prim2SF x) as [s|s| |s m e]; try destruct s; simpl; tauto.
Qed.

Lemma fnonneg_not_minus_one x : fnonneg x -> x <> -1.
Proof.
  intros H E. subst x. vm_compute in H. exact H.
Qed.

End SignFacts.

(* ================================================================== *)
(** * The variance is not below zero *)

Module VarFacts.
Import Notions SignFacts Numpy.

Lemma fold_add_fnonneg l : forall acc,
  fnonneg acc -> Forall fnonneg l -> fnonneg (fold_left add l acc).
Proof.
  induction l as [|x t IH]; intros acc Ha Hl; simpl; [exact Ha |].
  inversion Hl; subst. apply IH; [now apply add_fnonneg | assumption].
Qed.

Lemma Forall_firstn {A} (P : A -> Prop) n : forall l,
  Forall P l -> Forall P (firstn n l).
Proof.
  induction n as [|n IH]; intros l H; simpl; [constructor |].
  destruct H; constructor; auto.
Qed.

Lemma Forall_skipn {A} (P : A -> Prop) n : forall l,
  Forall P l -> Forall P (skipn n l).
Proof.
  induction n as [|n IH]; intros l H; simpl; [exact H |].
  destruct H; [constructor | auto].
Qed.

Lemma zip_add_fnonneg r : forall l,
  Forall fnonneg r -> Forall fnonneg l -> Forall fnonneg (zip_add r l).
Proof.
  induction r as [|x r IH]; intros l Hr Hl; simpl; [constructor |].
  destruct l as [|y l]; [exact Hr |].
  inversion Hr; inversion Hl; subst.
  constructor; [now apply add_fnonneg | now apply IH].
Qed.

Lemma add_blocks_fnonneg k : forall r l,
  Forall fnonneg r -> Forall fnonneg l ->
  Forall fnonneg (fst (add_blocks k r l))
  /\ Forall fnonneg (snd (add_blocks k r l)).
Proof.
  induction k as [|k IH]; intros r l Hr Hl; cbn [add_blocks];
    [now split |].
  apply IH.
  - apply zip_add_fnonneg; [assumption | now apply Forall_firstn].
  - now apply Forall_skipn.
Qed.

Lemma nan_fnonneg : fnonneg nan.
Proof. vm_compute. exact I. Qed.

Lemma combine8_fnonneg r : Forall fnonneg r -> fnonneg (combine8 r).
Proof.
  intros H. unfold combine8.
  repeat (destruct r as [|? r]; [apply nan_fnonneg |];
          apply Forall_cons_iff in H; destruct H as [? H]).
  destruct r; [| apply nan_fnonneg].
  repeat apply add_fnonneg; assumption.
Qed.

Lemma unrolled_sum_fnonneg a : Forall fnonneg a -> fnonneg (unrolled_sum a).
Proof.
  intros H. unfold unrolled_sum.
  destruct (add_blocks_fnonneg (List.length a / 8 - 1)
              (firstn 8 a) (skipn 8 a)) as [H1 H2];
    [now apply Forall_firstn | now apply Forall_skipn |].
  destruct (add_blocks _ _ _) as [r rest]. simpl in H1, H2.
  apply fold_add_fnonneg; [now apply combine8_fnonneg | assumption].
Qed.

Lemma pairwise_sum_fnonneg fuel : forall a,
  Forall fnonneg a -> fnonneg (pairwise_sum fuel a).
Proof.
  induction fuel as [|fuel IH]; intros a H; cbn [pairwise_sum].
  - destruct (List.length a <? 8)%nat.
    + apply fold_add_fnonneg; [vm_compute; exact I | assumption].
    + destruct (List.length a <=? 128)%nat; now apply unrolled_sum_fnonneg.
  - destruct (List.length a <? 8)%nat.
    + apply fold_add_fnonneg; [vm_compute; exact I | assumption].
    + destruct (List.length a <=? 128)%nat;
        [now apply unrolled_sum_fnonneg |].
      apply add_fnonneg; apply IH;
        [now apply Forall_firstn | now apply Forall_skipn].
Qed.

Lemma sum_fnonneg a : Forall fnonneg a -> fnonneg (sum a).
Proof.
  intros H. unfold sum. apply add_fnonneg; [vm_compute; exact I |].
  now apply pairwise_sum_fnonneg.
Qed.

(** [numpy.var] of any array is a NaN or not below zero. *)
Lemma var_fnonneg a : fnonneg (var a).
Proof.
  unfold var. apply div_fnonneg; [| apply of_nat_signed].
  apply sum_fnonneg. rewrite Forall_forall. intros x Hx.
  apply in_map_iff in Hx. destruct Hx as (v & <- & _).
  apply mul_self_fnonneg.
Qed.

End VarFacts.

(* ================================================================== *)
(** * The timing series of longer and of particular flows *)

Module SeriesFacts.
Import TimeDiff Spec Inv Notions DifFacts.

Lemma timing_series_reverse_head p t :
  timing_series ((p, REVERSE) :: t) = timing_series t.
Proof.
  destruct t as [|b t]; [reflexivity |].
  now rewrite timing_series_cons2.
Qed.

Lemma last_item_cons2 {A} (a b : A) t :
  last_item (a :: b :: t) = last_item (b :: t).
Proof. reflexivity. Qed.

Lemma timing_series_app l1 : forall l2,
  timing_series (l1 ++ l2) =
  timing_series l1 ++ timing_series (last_item l1 ++ l2).
Proof.
  induction l1 as [|a t IH]; intros l2; [reflexivity |].
  destruct t as [|b t'].
  - reflexivity.
  - rewrite last_item_cons2.
    change ((a :: b :: t') ++ l2) with (a :: b :: (t' ++ l2)).
    rewrite !timing_series_cons2.
    change (b :: t' ++ l2) with ((b :: t') ++ l2).
    rewrite IH. now rewrite app_assoc.
Qed.

Lemma get_dif_add_packets self l :
  get_dif (Flow.add_packets self l) =
  get_dif self ++ timing_series (last_item (Flow.packets self) ++ l).
Proof.
  rewrite !get_dif_timing_series, FlowFacts.add_packets_packets.
  apply timing_series_app.
Qed.

(** A Forward-then-Reverse pair uses up two packets. *)
Lemma timing_series_length l :
  (2 * List.length (timing_series l) <= List.length l)%nat
  /\ (forall p t, l = (p, REVERSE) :: t ->
        2 * List.length (timing_series l) <= List.length t)%nat.
Proof.
  induction l as [|[pa da] t IH]; [split; [simpl; lia | discriminate] |].
  destruct IH as [IH1 IH2].
  destruct da.
  - (* a Forward packet *)
    split; [| discriminate].
    destruct t as [|[pb db] t']; [simpl; lia |].
    rewrite timing_series_cons2. destruct db; cbn [forward_then_reverse
      fst snd PacketDirection_eqb andb app].
    + cbn [List.length] in *. lia.
    + specialize (IH2 pb t' eq_refl).
      cbn [List.length] in *. lia.
  - (* a Reverse packet *)
    rewrite timing_series_reverse_head.
    split; [cbn [List.length]; lia |].
    intros p t0 E.
    assert (t0 = t) as -> by (now injection E).
    lia.
Qed.

Lemma timing_series_exchanges l :
  timing_series (exchanges l) = map (fun ab => snd ab - fst ab) l.
Proof.
  induction l as [|[a b] l IH]; [reflexivity |].
  unfold exchanges in *. cbn [flat_map app fst snd map].
  rewrite timing_series_cons2, timing_series_reverse_head, IH.
  reflexivity.
Qed.

Lemma one_direction_no_transition d l :
  Forall (fun pd => snd pd = d) l -> has_forward_reverse l = false.
Proof.
  unfold has_forward_reverse.
  induction 1 as [|a t Ha Ht IH]; [reflexivity |].
  destruct Ht as [|b t' Hb Ht']; [reflexivity |].
  change (adjacent_pairs (a :: b :: t'))
    with ((a, b) :: adjacent_pairs (b :: t')).
  cbn [existsb]. rewrite IH, orb_false_r.
  unfold forward_then_reverse. cbn [fst snd]. rewrite Ha, Hb.
  now destruct d.
Qed.

End SeriesFacts.

(* ================================================================== *)
(** * Runs of calls and of packets *)

Module RunFacts.
Import FloatOrder FloatOrderFacts TimeDiff Notions GrandMeanFacts.

Lemma truediv_ok total d :
  d <> 0%Z -> Py.truediv total d = Py.Ok (total / Py.of_Z d).
Proof.
  intros Hd. unfold Py.truediv.
  destruct (Z.eqb_spec d 0); [contradiction | reflexivity].
Qed.

(** One call made when the count is at least 1. *)
Lemma get_grand_mean_later self st :
  (1 <= mean_count st)%Z ->
  fst (get_grand_mean self st) =
    Py.Ok ((grand_total st + get_mean self)
           / Py.of_Z (if (mean_count st =? 1)%Z then 2 else mean_count st))
  /\ mean_count (snd (get_grand_mean self st)) = (mean_count st + 1)%Z
  /\ grand_total (snd (get_grand_mean self st)) = grand_total st + get_mean self.
Proof.
  intros Hc. destruct (get_grand_mean_unfold self st) as (Hr & Hn & Ht).
  destruct (Z.eqb_spec (mean_count st) 0) as [E0|_]; [lia |].
  split; [| split; assumption]. rewrite Hr.
  destruct (Z.eqb_spec (mean_count st) 1) as [E1|N1].
  - rewrite E1. reflexivity.
  - destruct (Z.ltb_spec 1 (mean_count st)); [| lia].
    apply truediv_ok. lia.
Qed.

Lemma grand_means_later flows : forall st,
  (1 <= mean_count st)%Z ->
  mean_count (snd (grand_means flows st)) =
    (mean_count st + Z.of_nat (List.length flows))%Z
  /\ grand_total (snd (grand_means flows st)) =
       fold_left add (map get_mean flows) (grand_total st)
  /\ Forall (fun r => exists g, r = Py.Ok g) (fst (grand_means flows st)).
Proof.
  induction flows as [|f t IH]; intros st Hc.
  - cbn [grand_means fst snd List.length map fold_left Z.of_nat].
    split; [lia | split; [reflexivity | constructor]].
  - cbn [grand_means fst snd map fold_left].
    destruct (get_grand_mean_later f st Hc) as (Hr & Hn & Ht).
    destruct (IH (snd (get_grand_mean f st))) as (IHn & IHt & IHr); [lia |].
    rewrite IHn, IHt, Hn, Ht.
    split; [rewrite length_cons; lia |].
    split; [reflexivity |].
    constructor; [eauto | assumption].
Qed.

(** One packet after a run of packets. *)
Lemma add_packets_latest_bounds l : forall self,
  not_nan (Flow.latest_timestamp self) ->
  Forall (fun pd => not_nan (time (fst pd))) l ->
  let latest := Flow.latest_timestamp (Flow.add_packets self l) in
  not_nan latest
  /\ (Flow.latest_timestamp self <=? latest) = true
  /\ Forall (fun pd => (time (fst pd) <=? latest) = true) l
  /\ (latest = Flow.latest_timestamp self
      \/ exists pd, In pd l /\ latest = time (fst pd)).
Proof.
  induction l as [|[p d] l IH]; intros self Hs Hl; cbn zeta.
  - cbn [Flow.add_packets fold_left].
    split; [assumption |]. split; [now apply leb_refl |].
    split; [constructor | now left].
  - inversion Hl as [|? ? Hp Hl']; subst. cbn [fst] in Hp.
    unfold Flow.add_packets in *. cbn [fold_left fst snd].
    set (s1 := Flow.add_packet self p d) in *.
    assert (Flow.latest_timestamp s1 =
            Py.max (time p) [Flow.latest_timestamp self]) as E1 by reflexivity.
    destruct (FlowFacts.max_pair_upper (time p) (Flow.latest_timestamp self)
                Hp Hs) as [Hp1 Hs1].
    rewrite <- E1 in Hp1, Hs1.
    assert (not_nan (Flow.latest_timestamp s1)) as Hn1
      by (rewrite E1; now apply FlowFacts.max_pair_not_nan).
    destruct (IH s1 Hn1 Hl') as (Hn & Hle & Hall & Hat).
    split; [assumption |].
    split; [now apply leb_trans with (y := Flow.latest_timestamp s1) |].
    split.
    + constructor; [| assumption]. cbn [fst].
      now apply leb_trans with (y := Flow.latest_timestamp s1).
    + destruct Hat as [Hat | (pd & Hin & Hat)].
      * rewrite Hat, E1, FlowFacts.max_pair.
        destruct (time p <? Flow.latest_timestamp self); [now left |].
        right. exists (p, d). split; [now left | reflexivity].
      * right. exists pd. split; [now right | assumption].
Qed.

(** [add_packets] changes no attribute but [packets] and
    [latest_timestamp]. *)
Lemma add_packets_key l : forall self,
  Flow.dest_ip (Flow.add_packets self l) = Flow.dest_ip self
  /\ Flow.src_ip (Flow.add_packets self l) = Flow.src_ip self
  /\ Flow.src_port (Flow.add_packets self l) = Flow.src_port self
  /\ Flow.dest_port (Flow.add_packets self l) = Flow.dest_port self
  /\ Flow.interface (Flow.add_packets self l) = Flow.interface self.
Proof.
  induction l as [|[p d] l IH]; intros self.
  - repeat split.
  - unfold Flow.add_packets in *. cbn [fold_left fst snd].
    destruct (IH (Flow.add_packet self p d)) as (H1 & H2 & H3 & H4 & H5).
    rewrite H1, H2, H3, H4, H5. repeat split.
Qed.

(** Zero divided by a number that is not zero is a zero. *)
Lemma zero_div s m :
  (s =? 0) = true -> not_nan m -> (m =? 0) = false -> (s / m =? 0) = true.
Proof.
  intros Hs Hm Hm0. apply not_nan_spec in Hm.
  rewrite FloatAxioms.eqb_spec in *. rewrite div_spec.
  change (Prim2SF 0) with (S754_zero false) in *.
  destruct (Prim2SF s) as [ss|ss| |ss ms es];
    try destruct ss; try discriminate;
    destruct (Prim2SF m) as [sm|sm| |sm mm em];
    try destruct sm; try discriminate; try congruence; reflexivity.
Qed.

End RunFacts.

(* ================================================================== *)
(** * A finite number minus itself *)

Module FiniteFacts.
Import FloatOrder FloatOrderFacts.

Lemma is_finite_spec x :
  is_finite x = true ->
  exists s, Prim2SF x = S754_zero s \/ exists m e, Prim2SF x = S754_finite s m e.
Proof.
  unfold is_finite. rewrite negb_true_iff, orb_false_iff.
  intros [Hn Hi]. apply not_nan_spec in Hn.
  unfold is_infinity in Hi. rewrite FloatAxioms.eqb_spec, abs_spec in Hi.
  change (Prim2SF infinity) with (S754_infinity false) in Hi.
  destruct (Prim2SF x) as [s|s| |s m e]; try congruence.
  - exists s. now left.
  - discriminate.
  - exists s. right. now exists m, e.
Qed.

Lemma sub_self x : is_finite x = true -> x - x = 0.
Proof.
  intros H. apply Prim2SF_inj. rewrite sub_spec.
  change (Prim2SF 0) with (S754_zero false).
  destruct (is_finite_spec x H) as (s & [E | (m & e & E)]); rewrite E.
  - now destruct s.
  - unfold SF64sub, SFsub. rewrite Z.sub_diag. reflexivity.
Qed.

End FiniteFacts.

(* ================================================================== *)
(** * [numpy.sum] adds exactly the items of the array *)

Module SumFacts.
Import SpecStats Numpy.

Lemma fold_add_float_sum l : forall la acc,
  float_sum la acc -> float_sum (la ++ l) (fold_left add l acc).
Proof.
  induction l as [|x t IH]; intros la acc H; simpl.
  - now rewrite app_nil_r.
  - replace (la ++ x :: t) with ((la ++ [x]) ++ t)
      by (now rewrite <- app_assoc).
    apply IH. apply float_sum_add; [assumption | constructor].
Qed.

Lemma zip_add_length r : forall l,
  List.length (zip_add r l) = List.length r.
Proof.
  induction r as [|x r IH]; intros l; simpl; [reflexivity |].
  destruct l; simpl; [reflexivity | now rewrite IH].
Qed.

(** The accumulators, each with the items it has added so far. *)
Lemma zip_add_float_sum ls r :
  Forall2 float_sum ls r ->
  forall l, (List.length l <= List.length r)%nat ->
  exists ls',
    Forall2 float_sum ls' (zip_add r l)
    /\ Permutation (concat ls') (concat ls ++ l).
Proof.
  induction 1 as [|lx x ls r Hx Hr IH]; intros l Hl.
  - destruct l; [| simpl in Hl; lia].
    exists []. split; [constructor | reflexivity].
  - destruct l as [|y l].
    + exists (lx :: ls). split; [now constructor |].
      now rewrite app_nil_r.
    + destruct (IH l) as (ls' & H1 & H2); [simpl in Hl; lia |].
      exists ((lx ++ [y]) :: ls'). split.
      * cbn [zip_add]. constructor; [| assumption].
        apply float_sum_add; [assumption | constructor].
      * cbn [concat]. rewrite H2, <- !app_assoc.
        apply Permutation_app_head. cbn [app].
        apply Permutation_middle.
Qed.

Lemma length_firstn_le {A} n (l : list A) :
  (List.length (firstn n l) <= n)%nat.
Proof. rewrite length_firstn. lia. Qed.

Lemma add_blocks_float_sum k : forall ls r l,
  Forall2 float_sum ls r -> List.length r = 8%nat ->
  exists ls',
    Forall2 float_sum ls' (fst (add_blocks k r l))
    /\ List.length (fst (add_blocks k r l)) = 8%nat
    /\ Permutation (concat ls' ++ snd (add_blocks k r l)) (concat ls ++ l).
Proof.
  induction k as [|k IH]; intros ls r l H Hr; cbn [add_blocks].
  - exists ls. repeat split; assumption || reflexivity.
  - destruct (zip_add_float_sum ls r H (firstn 8 l)) as (ls1 & H1 & P1).
    { rewrite Hr. apply length_firstn_le. }
    destruct (IH ls1 (zip_add r (firstn 8 l)) (skipn 8 l) H1)
      as (ls2 & H2 & L2 & P2).
    { now rewrite zip_add_length. }
    exists ls2. split; [assumption |]. split; [assumption |].
    rewrite P2, P1, <- app_assoc, firstn_skipn. reflexivity.
Qed.

Lemma combine8_float_sum ls r :
  Forall2 float_sum ls r -> List.length r = 8%nat ->
  float_sum (concat ls) (combine8 r).
Proof.
  intros H Hr.
  do 8 (destruct r as [|? r]; [discriminate |]).
  destruct r; [| discriminate].
  repeat match goal with
         | H : Forall2 _ _ (_ :: _) |- _ => inversion H; subst; clear H
         | H : Forall2 _ _ [] |- _ => inversion H; subst; clear H
         end.
  cbn [combine8 concat]. rewrite app_nil_r.
  eapply float_sum_perm;
    [| repeat apply float_sum_add; eassumption].
  rewrite <- !app_assoc. reflexivity.
Qed.

Lemma singletons_float_sum l :
  Forall2 float_sum (map (fun x => [x]) l) l
  /\ concat (map (fun x => [x]) l) = l.
Proof.
  induction l as [|x t [IH1 IH2]]; [split; [constructor | reflexivity] |].
  split; [constructor; [constructor | assumption] |].
  cbn [map concat app]. now rewrite IH2.
Qed.

Lemma unrolled_sum_float_sum a :
  (8 <= List.length a)%nat -> float_sum a (unrolled_sum a).
Proof.
  intros Hn. unfold unrolled_sum.
  destruct (singletons_float_sum (firstn 8 a)) as [S1 S2].
  destruct (add_blocks_float_sum (List.length a / 8 - 1)
              _ (firstn 8 a) (skipn 8 a) S1) as (ls & H1 & L & P).
  { rewrite length_firstn. lia. }
  destruct (add_blocks _ _ _) as [r rest]. cbn [fst snd] in *.
  rewrite S2, firstn_skipn in P.
  eapply float_sum_perm; [exact P |].
  apply fold_add_float_sum.
  now apply combine8_float_sum.
Qed.

Lemma pairwise_sum_float_sum fuel : forall a,
  float_sum a (pairwise_sum fuel a).
Proof.
  induction fuel as [|fuel IH]; intros a; cbn [pairwise_sum];
    destruct (Nat.ltb_spec (List.length a) 8) as [Hlt|Hge];
    try (apply (fold_add_float_sum a []); constructor);
    destruct (List.length a <=? 128)%nat;
    try (now apply unrolled_sum_float_sum).
  set (n2 := (List.length a / 2 - (List.length a / 2) mod 8)%nat).
  rewrite <- (firstn_skipn n2 a) at 1.
  apply float_sum_add; apply IH.
Qed.

Lemma sum_float_sum a : float_sum a (sum a).
Proof.
  unfold sum. apply (float_sum_add [] a); [constructor |].
  apply pairwise_sum_float_sum.
Qed.

Lemma mean_is_mean a : is_mean a (mean a).
Proof. exists (sum a). split; [apply sum_float_sum | reflexivity]. Qed.

(** [numpy.var] is a population variance. *)
Lemma var_is_population_variance a : is_population_variance a (var a).
Proof.
  exists (mean a). split; [apply mean_is_mean |].
  unfold var, is_mean. fold (mean a).
  rewrite map_map.
  eexists. split; [apply sum_float_sum |].
  unfold count. now rewrite length_map.
Qed.

(** Fewer than 8 items are added from left to right. *)
Lemma pairwise_sum_short fuel a :
  (List.length a < 8)%nat -> pairwise_sum fuel a = fold_left add a (-0).
Proof.
  intros H. destruct fuel; cbn [pairwise_sum];
    destruct (Nat.ltb_spec (List.length a) 8); reflexivity || lia.
Qed.

Lemma short_sum_sum a : (List.length a < 8)%nat -> sum a = short_sum a.
Proof.
  intros H. unfold sum, short_sum. now rewrite pairwise_sum_short.
Qed.

Lemma short_variance_var a :
  (List.length a < 8)%nat -> var a = short_variance a.
Proof.
  intros H. unfold var, short_variance, short_mean.
  rewrite map_map, <- !short_sum_sum by (now rewrite ?length_map).
  unfold count. now rewrite length_map.
Qed.

End SumFacts.

(* ================================================================== *)
(** * Identical deltas whose mean is computed exactly *)

Module ZeroFacts.
Import FloatOrder FloatOrderFacts SpecStats ZeroNotions Numpy.









End ZeroFacts.

(* ================================================================== *)
(** * Division by one, and the mean of a single delta *)

Module OneFacts.
Import FloatOrder FloatOrderFacts ZeroNotions.










End OneFacts.

(* ================================================================== *)
(** * The guard of the two skews *)

Module SkewFacts.
Import TimeDiff DifFacts.




End SkewFacts.

(* ================================================================== *)
(** * The statements of the specification *)

Import TimeDiff Spec Inv DifFacts FloatOrderFacts.

(** C5.  For every flow, the timing series computed by [get_dif] holds
    exactly one element [reverse.timestamp - forward.timestamp] for each
    pair of neighbours, in arrival order, in which a Forward packet is
    immediately followed by a Reverse packet, and nothing for any other
    pair. *)
Theorem get_dif_forward_reverse_pairs (self : Flow.t) :
  get_dif self =
    map (fun pr => time (fst (snd pr)) - time (fst (fst pr)))
        (filter forward_then_reverse (adjacent_pairs (Flow.packets self)))
  /\ List.length (get_dif self) =
       List.length (filter forward_then_reverse
                      (adjacent_pairs (Flow.packets self)))
  /\ (forall i : nat,
        nth_error (adjacent_pairs (Flow.packets self)) i =
        match nth_error (Flow.packets self) i,
              nth_error (Flow.packets self) (S i) with
        | Some a, Some b => Some (a, b)
        | _, _ => None
        end)
  /\ (forall a b,
        forward_then_reverse (a, b) = true <->
        snd a = FORWARD /\ snd b = REVERSE).
Proof.
  split; [apply get_dif_timing_series |].
  split; [rewrite get_dif_timing_series; apply length_map |].
  split; [intros i; apply adjacent_pairs_nth |].
  intros [pa da] [pb db]. unfold forward_then_reverse. simpl.
  destruct da, db; simpl; intuition congruence.
Qed.

(** C9.  [add_packet] puts [(packet, direction)] at the end of [packets],
    sets [latest_timestamp] to [max] of the packet's time and the old value,
    and leaves every other attribute as it was; for timestamps that are
    numbers (not NaN) the new value is at least the old one and at least the
    packet's time. *)
Theorem add_packet_appends_and_advances
  (self : Flow.t) (packet : Packet) (direction : PacketDirection) :
  let self' := Flow.add_packet self packet direction in
  Flow.packets self' = Flow.packets self ++ [(packet, direction)]
  /\ Flow.latest_timestamp self' =
       (if time packet <? Flow.latest_timestamp self
        then Flow.latest_timestamp self else time packet)
  /\ Flow.dest_ip self' = Flow.dest_ip self
  /\ Flow.src_ip self' = Flow.src_ip self
  /\ Flow.src_port self' = Flow.src_port self
  /\ Flow.dest_port self' = Flow.dest_port self
  /\ Flow.interface self' = Flow.interface self
  /\ (FloatOrder.not_nan (time packet) ->
      FloatOrder.not_nan (Flow.latest_timestamp self) ->
      (Flow.latest_timestamp self <=? Flow.latest_timestamp self') = true
      /\ (time packet <=? Flow.latest_timestamp self') = true).
Proof.
  cbn zeta. repeat split; try reflexivity.
  - now apply (FlowFacts.max_pair_upper (time packet) (Flow.latest_timestamp self)).
  - now apply (FlowFacts.max_pair_upper (time packet) (Flow.latest_timestamp self)).
Qed.

Lemma add_packet_appends_and_advances_witness :
  let self := Scenario.flow_of [Scenario.F 0.0; Scenario.R 0.1] in
  let self' := Flow.add_packet self (mkPacket 0.05) FORWARD in
  Flow.packets self' = [Scenario.F 0.0; Scenario.R 0.1; (mkPacket 0.05, FORWARD)]
  /\ Flow.latest_timestamp self = 0.1
  /\ Flow.latest_timestamp self' = 0.1
  /\ (Flow.latest_timestamp self <=? Flow.latest_timestamp self') = true.
Proof.
  cbn zeta.
  pose proof (add_packet_appends_and_advances
                (Scenario.flow_of [Scenario.F 0.0; Scenario.R 0.1])
                (mkPacket 0.05) FORWARD) as H.
  cbn zeta in H.
  destruct H as (Hp & Hl & _ & _ & _ & _ & _ & Hmono).
  destruct (Hmono eq_refl eq_refl) as [Hle _].
  split; [exact Hp | split; [| split]].
  - vm_compute. reflexivity.
  - rewrite Hl. vm_compute. reflexivity.
  - exact Hle.
Defined.

(** C7.  On a non-empty timing series [get_std] is the square root of
    [get_var]: the correctly rounded binary64 square root, as IEEE 754
    specifies it.  [get_var] is the population variance of the series:
    the sum of the squared deviations from the mean, divided by the number
    of deltas, where the mean is the sum of the deltas divided by their
    number; for fewer than 8 deltas both sums add from left to right. *)
Theorem std_is_sqrt_of_variance (self : Flow.t) :
  get_dif self <> [] ->
  get_std self = PrimFloat.sqrt (get_var self)
  /\ Prim2SF (get_std self) = SFsqrt prec emax (Prim2SF (get_var self))
  /\ get_var self = Numpy.var (get_dif self)
  /\ SpecStats.is_population_variance (get_dif self) (get_var self)
  /\ ((List.length (get_dif self) < 8)%nat ->
      get_var self = SpecStats.short_variance (get_dif self)).
Proof.
  intros H. unfold get_std, get_var.
  rewrite (nonempty_guard _ H).
  split; [reflexivity |].
  split; [apply sqrt_spec |].
  split; [reflexivity |].
  split; [apply SumFacts.var_is_population_variance |].
  apply SumFacts.short_variance_var.
Qed.

Lemma std_is_sqrt_of_variance_witness :
  get_dif Scenario.end_to_end <> []
  /\ get_var Scenario.end_to_end = SpecStats.short_variance [0.1; 0.3]
  /\ get_var Scenario.end_to_end = 0.009999999999999998
  /\ get_std Scenario.end_to_end = PrimFloat.sqrt 0.009999999999999998
  /\ get_std Scenario.end_to_end = 0.09999999999999999.
Proof.
  assert (get_dif Scenario.end_to_end = [0.1; 0.3]) as E
    by (vm_compute; reflexivity).
  assert (get_dif Scenario.end_to_end <> []) as Hne
    by (rewrite E; discriminate).
  split; [exact Hne |].
  destruct (std_is_sqrt_of_variance Scenario.end_to_end Hne)
    as (Hs & _ & _ & _ & Hv).
  assert (get_var Scenario.end_to_end = SpecStats.short_variance [0.1; 0.3])
    as Hvar by (rewrite <- E; apply Hv; rewrite E; simpl; lia).
  assert (SpecStats.short_variance [0.1; 0.3] = 0.009999999999999998) as Hc
    by (vm_compute; reflexivity).
  split; [exact Hvar |].
  split; [now rewrite Hvar |].
  split; [now rewrite Hs, Hvar, Hc |].
  rewrite Hs, Hvar, Hc. vm_compute. reflexivity.
Defined.




(** C2, as the code has it.  A flow with fewer than 2 packets, or in which
    no Forward packet is immediately followed by a Reverse packet, has an
    empty timing series; [get_mean], [get_var], [get_std] and [get_mode]
    then return -1, and [get_cov], which only guards against a mean of 0,
    returns [-1 / -1 = 1]. *)
Theorem empty_series_sentinels (self : Flow.t) :
  (List.length (Flow.packets self) < 2)%nat
  \/ has_forward_reverse (Flow.packets self) = false ->
  get_dif self = []
  /\ get_mean self = -1
  /\ get_var self = -1
  /\ get_std self = -1
  /\ get_mode self = -1
  /\ get_cov self = 1.
Proof.
  intros H.
  assert (get_dif self = []) as E.
  { apply get_dif_nil_iff. destruct H as [H|H]; [|exact H].
    now apply short_flow_no_transition. }
  repeat (split; [first [exact E | now apply empty_mean | now apply empty_var
                        | now apply empty_std | now apply empty_mode] |]).
  unfold get_cov. rewrite (empty_mean _ E), (empty_std _ E).
  vm_compute. reflexivity.
Qed.

Lemma empty_series_sentinels_witness :
  let self := Scenario.flow_of [Scenario.R 0.0; Scenario.F 0.1; Scenario.F 0.2] in
  has_forward_reverse (Flow.packets self) = false
  /\ get_dif self = []
  /\ get_mean self = -1
  /\ get_cov self = 1.
Proof.
  cbn zeta.
  assert (has_forward_reverse
            (Flow.packets (Scenario.flow_of
               [Scenario.R 0.0; Scenario.F 0.1; Scenario.F 0.2])) = false) as Hn
    by (vm_compute; reflexivity).
  destruct (empty_series_sentinels _ (or_intror Hn))
    as (Hd & Hm & _ & _ & _ & Hc).
  split; [exact Hn | split; [exact Hd | split; [exact Hm | exact Hc]]].
Defined.

(** C2 as stated fails: on the flow without packets the timing series is
    empty and the coefficient of variation is 1, not -1. *)
Lemma empty_series_cov_is_not_sentinel :
  (List.length (Flow.packets Scenario.new_flow) < 2)%nat
  /\ get_dif Scenario.new_flow = []
  /\ get_cov Scenario.new_flow = 1
  /\ get_cov Scenario.new_flow <> -1.
Proof.
  split; [simpl; lia | split; [reflexivity | split]].
  - vm_compute. reflexivity.
  - apply eqb_false_neq; vm_compute; reflexivity.
Qed.

(** C10.  On an empty timing series the mode-based skew is the quotient
    [(-1 - -1) / -1]: a zero (the negative zero of binary64, which [==]
    does not tell from 0.0), neither of the sentinels -10 and -1. *)
Theorem empty_series_skew2 (self : Flow.t) :
  get_dif self = [] ->
  get_skew2 self = (get_mean self - get_mode self) / get_std self
  /\ get_mean self - get_mode self = 0
  /\ get_std self = -1
  /\ get_skew2 self = -0
  /\ (get_skew2 self =? 0) = true
  /\ (get_skew2 self =? -10) = false
  /\ (get_skew2 self =? -1) = false.
Proof.
  intros E. unfold get_skew2.
  rewrite (empty_mean _ E), (empty_mode _ E), (empty_std _ E).
  vm_compute. repeat split; reflexivity.
Qed.

Lemma empty_series_skew2_witness :
  get_dif Scenario.new_flow = []
  /\ (get_skew2 Scenario.new_flow =? 0) = true.
Proof.
  destruct (empty_series_skew2 Scenario.new_flow eq_refl)
    as (_ & _ & _ & _ & H & _).
  split; [reflexivity | exact H].
Defined.

(* ------------------------------------------------------------------ *)
(** ** The grand mean *)

(** C1, as the code has it.  From the initial class attributes, the calls
    for flows with means 2.0, 4.0 and 6.0 return 0.0 (total 0.0, count 1),
    then 2.0 (total 4.0, count 2), then 5.0 (total 10.0, count 3): the
    first call stores [mean - mean], not the mean.  In general a call made
    when the count is [c] first folds the mean into the total and raises
    the count to [c + 1], and then returns the new total divided by [c]
    when [c > 1] and by [c + 1] otherwise. *)
Theorem grand_mean_divisor_rule :
  (get_mean Scenario.flow_mean2 = 2
   /\ get_mean Scenario.flow_mean4 = 4
   /\ get_mean Scenario.flow_mean6 = 6
   /\ three_calls Scenario.flow_mean2 Scenario.flow_mean4 Scenario.flow_mean6
        initial =
      ((Py.Ok 0, {| mean_count := 1; grand_total := 0; grand_mean := Some 0 |}),
       (Py.Ok 2, {| mean_count := 2; grand_total := 4; grand_mean := Some 2 |}),
       (Py.Ok 5, {| mean_count := 3; grand_total := 10; grand_mean := Some 5 |})))
  /\ (forall (self : Flow.t) (st : ClassState),
        let total :=
          if (mean_count st =? 0)%Z then get_mean self - get_mean self
          else grand_total st + get_mean self in
        fst (get_grand_mean self st) =
          (if (1 <? mean_count st)%Z then Py.truediv total (mean_count st)
           else Py.truediv total (mean_count st + 1))
        /\ mean_count (snd (get_grand_mean self st)) = (mean_count st + 1)%Z
        /\ grand_total (snd (get_grand_mean self st)) = total).
Proof.
  split.
  - repeat split; vm_compute; reflexivity.
  - intros self st. pose proof (GrandMeanFacts.get_grand_mean_unfold self st) as H.
    cbn zeta in *. destruct (1 <? mean_count st)%Z; exact H.
Qed.

(** C1 as stated fails: the first call returns 0.0, not 2.0, and the
    second 2.0 with a total of 4.0, not 6.0 with a total of 6.0. *)
Lemma grand_mean_first_fold_is_zero :
  get_mean Scenario.flow_mean2 = 2
  /\ fst (get_grand_mean Scenario.flow_mean2 initial) = Py.Ok 0
  /\ fst (get_grand_mean Scenario.flow_mean2 initial) <> Py.Ok 2
  /\ fst (get_grand_mean Scenario.flow_mean4
            (snd (get_grand_mean Scenario.flow_mean2 initial))) = Py.Ok 2
  /\ grand_total (snd (get_grand_mean Scenario.flow_mean4
            (snd (get_grand_mean Scenario.flow_mean2 initial)))) = 4.
Proof.
  assert (fst (get_grand_mean Scenario.flow_mean2 initial) = Py.Ok 0) as E
    by (vm_compute; reflexivity).
  repeat split; try (vm_compute; reflexivity).
  rewrite E. intros H.
  apply (f_equal (fun r => match r with Py.Ok g => g | Py.Raise _ => 0 end)) in H.
  revert H. apply eqb_false_neq; vm_compute; reflexivity.
Qed.

(** C3, as the code has it.  [get_grand_mean] folds before it divides, and
    divides by the count read after the fold; so with a count that is not
    negative the division never raises, and with a count still at 0 the
    call returns [(mean - mean) / 1] and leaves the count at 1. *)
Theorem grand_mean_never_raises (self : Flow.t) (st : ClassState) :
  (0 <= mean_count st)%Z ->
  exists g : float,
    fst (get_grand_mean self st) = Py.Ok g
    /\ grand_mean (snd (get_grand_mean self st)) = Some g
    /\ (mean_count st = 0%Z ->
        g = (get_mean self - get_mean self) / 1
        /\ mean_count (snd (get_grand_mean self st)) = 1%Z).
Proof.
  intros Hc. unfold get_grand_mean, _get_grand_total.
  cbn [mean_count grand_total].
  set (total := if (mean_count st =? 0)%Z then _ else _).
  assert (forall d, d <> 0%Z -> Py.truediv total d = Py.Ok (total / Py.of_Z d))
    as Hdiv.
  { intros d Hd. unfold Py.truediv.
    destruct (Z.eqb_spec d 0); [contradiction | reflexivity]. }
  destruct (Z.ltb_spec 1 (mean_count st)) as [Hgt|Hle].
  - rewrite Hdiv by lia. eexists. split; [reflexivity |].
    split; [reflexivity | intros H0; lia].
  - rewrite Hdiv by lia. eexists. split; [reflexivity |].
    split; [reflexivity |]. intros H0.
    subst total. rewrite H0. cbn [Z.eqb Z.add].
    split; reflexivity.
Qed.

Lemma grand_mean_never_raises_witness :
  (0 <= mean_count initial)%Z
  /\ exists g : float,
       fst (get_grand_mean Scenario.flow_mean2 initial) = Py.Ok g
       /\ g = (get_mean Scenario.flow_mean2 - get_mean Scenario.flow_mean2) / 1.
Proof.
  assert (0 <= mean_count initial)%Z as H0 by (simpl; lia).
  split; [exact H0 |].
  destruct (grand_mean_never_raises Scenario.flow_mean2 initial H0)
    as (g & Hg & _ & Hz).
  exists g. split; [exact Hg |].
  destruct (Hz eq_refl) as [Hv _]. exact Hv.
Defined.

(** C3 as stated fails: with the count still at 0 the call does not fail;
    it returns 0.0. *)
Lemma grand_mean_before_any_fold_returns :
  mean_count initial = 0%Z
  /\ get_grand_mean Scenario.new_flow initial =
       (Py.Ok 0, {| mean_count := 1; grand_total := 0; grand_mean := Some 0 |})
  /\ fst (get_grand_mean Scenario.new_flow initial) <> Py.Raise Py.ZeroDivisionError.
Proof.
  split; [reflexivity |].
  assert (get_grand_mean Scenario.new_flow initial =
       (Py.Ok 0, {| mean_count := 1; grand_total := 0; grand_mean := Some 0 |}))
    as E by (vm_compute; reflexivity).
  split; [exact E |]. rewrite E. discriminate.
Qed.

(* ------------------------------------------------------------------ *)
(** ** The end-to-end scenario *)

(** C4.  For packets at 0.0 (Forward), 0.1 (Reverse), 0.2 (Forward),
    0.5 (Reverse) the timing series is [0.1, 0.3], the mean 0.2, the
    median 0.2 and the median-based skew 0; the variance, the standard
    deviation and the coefficient of variation are 0.01, 0.1 and 0.5 to
    floating-point tolerance: each is the binary64 value just below the
    stated one (0.009999999999999998, 0.09999999999999999 and
    0.49999999999999994), within 1e-16 of it. *)
Theorem end_to_end_statistics :
  get_dif Scenario.end_to_end = [0.1; 0.3]
  /\ get_mean Scenario.end_to_end = 0.2
  /\ get_median Scenario.end_to_end = 0.2
  /\ get_skew Scenario.end_to_end = 0
  /\ get_var Scenario.end_to_end = 0.009999999999999998
  /\ get_std Scenario.end_to_end = 0.09999999999999999
  /\ get_cov Scenario.end_to_end = 0.49999999999999994
  /\ (abs (get_var Scenario.end_to_end - 0.01) <=? 1e-16) = true
  /\ (abs (get_std Scenario.end_to_end - 0.1) <=? 1e-16) = true
  /\ (abs (get_cov Scenario.end_to_end - 0.5) <=? 1e-16) = true
  /\ next_up (get_var Scenario.end_to_end) = 0.01
  /\ next_up (get_std Scenario.end_to_end) = 0.1
  /\ next_up (get_cov Scenario.end_to_end) = 0.5.
Proof. repeat split; vm_compute; reflexivity. Qed.

(* ------------------------------------------------------------------ *)
(** ** The mode *)

(** C8.  On a non-empty timing series of numbers (no NaN) [get_mode]
    returns a value of the series that no other value outnumbers, and it is
    at most every value that occurs as often: the smallest of the most
    frequent values.  For the series [1.0, 1.0, 2.0, 2.0] the mode is
    1.0. *)
Theorem mode_most_frequent_smallest :
  (forall self : Flow.t,
     get_dif self <> [] -> no_nan (get_dif self) ->
     In (get_mode self) (get_dif self)
     /\ (forall y, In y (get_dif self) ->
           (occurrences y (get_dif self)
            <= occurrences (get_mode self) (get_dif self))%nat)
     /\ (forall y, In y (get_dif self) ->
           occurrences y (get_dif self)
           = occurrences (get_mode self) (get_dif self) ->
           (get_mode self <=? y) = true))
  /\ Scipy.mode [1; 1; 2; 2] = 1
  /\ get_dif Scenario.tied_modes = [1; 1; 2; 2]
  /\ get_mode Scenario.tied_modes = 1.
Proof.
  split.
  - intros self Hne Hn. unfold get_mode.
    rewrite (nonempty_guard _ Hne).
    now apply ModeFacts.mode_spec.
  - repeat split; vm_compute; reflexivity.
Qed.

Lemma mode_most_frequent_smallest_witness :
  get_dif Scenario.tied_modes = [1; 1; 2; 2]
  /\ occurrences 2 (get_dif Scenario.tied_modes) = 2%nat
  /\ occurrences (get_mode Scenario.tied_modes) (get_dif Scenario.tied_modes) = 2%nat
  /\ (get_mode Scenario.tied_modes <=? 2) = true.
Proof.
  assert (get_dif Scenario.tied_modes = [1; 1; 2; 2]) as E
    by (vm_compute; reflexivity).
  assert (get_dif Scenario.tied_modes <> []) as Hne
    by (rewrite E; discriminate).
  assert (no_nan (get_dif Scenario.tied_modes)) as Hn
    by (rewrite E; repeat constructor).
  assert (occurrences 2 (get_dif Scenario.tied_modes) = 2%nat) as H2
    by (vm_compute; reflexivity).
  assert (occurrences (get_mode Scenario.tied_modes)
            (get_dif Scenario.tied_modes) = 2%nat) as Hm
    by (vm_compute; reflexivity).
  destruct mode_most_frequent_smallest as [H _].
  destruct (H Scenario.tied_modes Hne Hn) as (_ & _ & Hmin).
  split; [exact E | split; [exact H2 | split; [exact Hm |]]].
  apply Hmin.
  - rewrite E. simpl. tauto.
  - now rewrite H2, Hm.
Defined.

(* ================================================================== *)
(** * Further properties of the code *)

Import Notions.

(** X1.  Adding a packet never changes the deltas already in the timing
    series: it appends one delta, the packet's time minus the time of the
    flow's last packet, when that last packet is Forward and the new one
    Reverse, and appends nothing otherwise. *)
Theorem get_dif_after_add_packet
  (self : Flow.t) (packet : Packet) (direction : PacketDirection) :
  get_dif (Flow.add_packet self packet direction) =
  get_dif self ++
    match last_item (Flow.packets self), direction with
    | [(previous, FORWARD)], REVERSE => [time packet - time previous]
    | _, _ => []
    end.
Proof.
  change (Flow.add_packet self packet direction)
    with (Flow.add_packets self [(packet, direction)]).
  rewrite SeriesFacts.get_dif_add_packets. f_equal.
  induction (Flow.packets self) as [|a t IH].
  - now destruct direction.
  - destruct t as [|b t'].
    + cbn [last_item app]. rewrite timing_series_cons2.
      destruct a as [pa [|]], direction; reflexivity.
    + rewrite SeriesFacts.last_item_cons2. exact IH.
Qed.

(** X2.  The timing series of a flow to which a run of packets was added
    is the series it had, followed by the series of the run taken together
    with the flow's last packet before it. *)
Theorem get_dif_after_add_packets
  (self : Flow.t) (l : list (Packet * PacketDirection)) :
  get_dif (Flow.add_packets self l) =
  get_dif self ++ timing_series (last_item (Flow.packets self) ++ l).
Proof. apply SeriesFacts.get_dif_add_packets. Qed.

(** X3.  The timing series has at most half as many deltas as the flow has
    packets. *)
Theorem get_dif_at_most_half (self : Flow.t) :
  (2 * List.length (get_dif self) <= List.length (Flow.packets self))%nat.
Proof.
  rewrite get_dif_timing_series. apply SeriesFacts.timing_series_length.
Qed.

(** X4.  When the packets of a flow are requests each followed by its
    answer (Forward, Reverse, Forward, Reverse, ...), the timing series
    holds exactly the answer time minus the request time of every exchange,
    in order. *)
Theorem get_dif_of_exchanges (self : Flow.t) (l : list (float * float)) :
  Flow.packets self = exchanges l ->
  get_dif self = map (fun ab => snd ab - fst ab) l
  /\ List.length (get_dif self) = List.length l.
Proof.
  intros E. rewrite get_dif_timing_series, E.
  rewrite SeriesFacts.timing_series_exchanges.
  split; [reflexivity | apply length_map].
Qed.

Lemma get_dif_of_exchanges_witness :
  Flow.packets Scenario.end_to_end = exchanges [(0.0, 0.1); (0.2, 0.5)]
  /\ get_dif Scenario.end_to_end = [0.1 - 0.0; 0.5 - 0.2].
Proof.
  assert (Flow.packets Scenario.end_to_end
          = exchanges [(0.0, 0.1); (0.2, 0.5)]) as E by reflexivity.
  split; [exact E |].
  destruct (get_dif_of_exchanges Scenario.end_to_end _ E) as [H _].
  exact H.
Defined.

(** X5.  A flow whose packets all travel in the same direction has an
    empty timing series, so [get_mean], [get_var], [get_std] and
    [get_mode] return -1 for it. *)
Theorem one_direction_empty_series (self : Flow.t) (d : PacketDirection) :
  Forall (fun pd => snd pd = d) (Flow.packets self) ->
  get_dif self = []
  /\ get_mean self = -1 /\ get_var self = -1
  /\ get_std self = -1 /\ get_mode self = -1.
Proof.
  intros H.
  assert (get_dif self = []) as E.
  { apply get_dif_nil_iff.
    now apply SeriesFacts.one_direction_no_transition with (d := d). }
  split; [exact E |].
  split; [now apply empty_mean |]. split; [now apply empty_var |].
  split; [now apply empty_std | now apply empty_mode].
Qed.

Lemma one_direction_empty_series_witness :
  let self := Scenario.flow_of [Scenario.F 0.0; Scenario.F 0.1; Scenario.F 0.3] in
  Forall (fun pd => snd pd = FORWARD) (Flow.packets self)
  /\ get_dif self = [].
Proof.
  cbn zeta.
  assert (Forall (fun pd => snd pd = FORWARD)
            (Flow.packets (Scenario.flow_of
               [Scenario.F 0.0; Scenario.F 0.1; Scenario.F 0.3]))) as H
    by (repeat constructor).
  split; [exact H |].
  destruct (one_direction_empty_series _ FORWARD H) as [E _]. exact E.
Defined.

(** X6.  On an empty timing series [get_median] is NaN ([numpy.median] of
    an empty list), and so is [get_skew]: its guard [std != 0] holds,
    [std] being -1, and the division is carried out on a NaN. *)
Theorem empty_series_median_skew (self : Flow.t) :
  get_dif self = [] ->
  get_median self = nan /\ get_skew self = nan.
Proof.
  intros E. unfold get_skew, get_median.
  rewrite (empty_mean _ E), (empty_std _ E), E.
  split; vm_compute; reflexivity.
Qed.

Lemma empty_series_median_skew_witness :
  get_dif Scenario.new_flow = []
  /\ get_median Scenario.new_flow = nan
  /\ get_skew Scenario.new_flow = nan.
Proof.
  split; [reflexivity |].
  exact (empty_series_median_skew Scenario.new_flow eq_refl).
Defined.

(** X7.  On a non-empty timing series [get_var] and [get_std] are never
    below zero: each is a NaN, a zero or a positive value. *)
Theorem variance_and_std_not_negative (self : Flow.t) :
  get_dif self <> [] ->
  (get_var self <? 0) = false /\ (get_std self <? 0) = false.
Proof.
  intros H. unfold get_std, get_var. rewrite (nonempty_guard _ H).
  split; apply SignFacts.fnonneg_ltb.
  - apply VarFacts.var_fnonneg.
  - apply SignFacts.sqrt_fnonneg.
Qed.

Lemma variance_and_std_not_negative_witness :
  get_dif Scenario.end_to_end <> []
  /\ (get_var Scenario.end_to_end <? 0) = false
  /\ (get_std Scenario.end_to_end <? 0) = false.
Proof.
  assert (get_dif Scenario.end_to_end <> []) as Hne
    by (vm_compute; discriminate).
  split; [exact Hne |].
  exact (variance_and_std_not_negative Scenario.end_to_end Hne).
Defined.

(** X8.  The sentinel -1 of [get_var] and of [get_std] is unambiguous:
    each returns -1 exactly when the timing series is empty. *)
Theorem variance_and_std_sentinel (self : Flow.t) :
  (get_var self = -1 <-> get_dif self = [])
  /\ (get_std self = -1 <-> get_dif self = []).
Proof.
  split; (split; [| first [apply empty_var | apply empty_std]]).
  - intros Hv. destruct (get_dif self) as [|x t] eqn:E; [reflexivity |].
    exfalso. revert Hv. unfold get_var. rewrite E. cbn [List.length Nat.eqb negb].
    apply SignFacts.fnonneg_not_minus_one, VarFacts.var_fnonneg.
  - intros Hv. destruct (get_dif self) as [|x t] eqn:E; [reflexivity |].
    exfalso. revert Hv. unfold get_std. rewrite E. cbn [List.length Nat.eqb negb].
    apply SignFacts.fnonneg_not_minus_one, SignFacts.sqrt_fnonneg.
Qed.

(** X9.  After [get_grand_mean] has been called for [n >= 1] flows, starting
    from the class as defined, no call has raised, the count is [n], and
    the total is the sum of the means of all flows but the first, added in
    order to [mean - mean] of the first; the next call then returns the new
    total divided by 2 when [n = 1] and by [n] otherwise. *)
Theorem grand_means_from_initial
  (first : Flow.t) (rest : list Flow.t) (next : Flow.t) :
  let run := grand_means (first :: rest) initial in
  let n := Z.of_nat (List.length (first :: rest)) in
  mean_count (snd run) = n
  /\ grand_total (snd run) =
       fold_left add (map get_mean rest) (get_mean first - get_mean first)
  /\ Forall (fun r => exists g, r = Py.Ok g) (fst run)
  /\ fst (get_grand_mean next (snd run)) =
       Py.Ok ((grand_total (snd run) + get_mean next)
              / Py.of_Z (if (n =? 1)%Z then 2 else n)).
Proof.
  cbn zeta. cbn [grand_means fst snd].
  destruct (GrandMeanFacts.get_grand_mean_unfold first initial)
    as (Hr & Hn & Ht).
  cbn [initial mean_count grand_total Z.eqb Z.ltb Z.compare Z.add] in Hr, Hn, Ht.
  set (st1 := snd (get_grand_mean first initial)) in *.
  destruct (RunFacts.grand_means_later rest st1) as (Rn & Rt & Rr); [lia |].
  assert (mean_count (snd (grand_means rest st1))
          = Z.of_nat (List.length (first :: rest))) as Hcount
    by (rewrite Rn, Hn, length_cons; lia).
  split; [exact Hcount |].
  split; [now rewrite Rt, Ht |].
  split.
  - constructor; [| exact Rr]. rewrite Hr. eexists. reflexivity.
  - destruct (RunFacts.get_grand_mean_later next (snd (grand_means rest st1)))
      as (Hnext & _); [rewrite Hcount, length_cons; lia |].
    now rewrite Hnext, Hcount.
Qed.

(** X10.  The first call of [get_grand_mean], made on the class as defined
    for a flow whose mean is finite, returns 0 whatever the mean is, and
    leaves a total of 0 and a count of 1. *)
Theorem first_grand_mean_is_zero (self : Flow.t) :
  is_finite (get_mean self) = true ->
  get_grand_mean self initial =
  (Py.Ok 0, {| mean_count := 1; grand_total := 0; grand_mean := Some 0 |}).
Proof.
  intros H. unfold get_grand_mean, _get_grand_total.
  cbn [initial mean_count grand_total Z.eqb Z.ltb Z.compare Z.add].
  rewrite (FiniteFacts.sub_self _ H). vm_compute. reflexivity.
Qed.

Lemma first_grand_mean_is_zero_witness :
  is_finite (get_mean Scenario.flow_mean6) = true
  /\ fst (get_grand_mean Scenario.flow_mean6 initial) = Py.Ok 0.
Proof.
  assert (is_finite (get_mean Scenario.flow_mean6) = true) as H
    by (vm_compute; reflexivity).
  split; [exact H |].
  now rewrite (first_grand_mean_is_zero Scenario.flow_mean6 H).
Defined.

(** X11.  After any run of packets whose times are numbers, added to a
    flow whose [latest_timestamp] is a number, [latest_timestamp] is at
    least its old value and at least the time of every packet added, and
    it is either the old value or the time of one of those packets. *)
Theorem latest_timestamp_is_maximum
  (self : Flow.t) (l : list (Packet * PacketDirection)) :
  FloatOrder.not_nan (Flow.latest_timestamp self) ->
  Forall (fun pd => FloatOrder.not_nan (time (fst pd))) l ->
  let latest := Flow.latest_timestamp (Flow.add_packets self l) in
  (Flow.latest_timestamp self <=? latest) = true
  /\ Forall (fun pd => (time (fst pd) <=? latest) = true) l
  /\ (latest = Flow.latest_timestamp self
      \/ exists pd, In pd l /\ latest = time (fst pd)).
Proof.
  intros Hs Hl.
  destruct (RunFacts.add_packets_latest_bounds l self Hs Hl) as (_ & H).
  exact H.
Qed.

Lemma latest_timestamp_is_maximum_witness :
  FloatOrder.not_nan (Flow.latest_timestamp Scenario.new_flow)
  /\ Forall (fun pd =>
               (time (fst pd) <=? Flow.latest_timestamp Scenario.end_to_end)
               = true)
       [Scenario.F 0.0; Scenario.R 0.1; Scenario.F 0.2; Scenario.R 0.5].
Proof.
  assert (FloatOrder.not_nan (Flow.latest_timestamp Scenario.new_flow)) as Hs
    by reflexivity.
  assert (Forall (fun pd => FloatOrder.not_nan (time (fst pd)))
            [Scenario.F 0.0; Scenario.R 0.1; Scenario.F 0.2; Scenario.R 0.5])
    as Hl by (repeat constructor).
  split; [exact Hs |].
  destruct (latest_timestamp_is_maximum Scenario.new_flow _ Hs Hl)
    as (_ & H & _).
  exact H.
Defined.

(** X12.  A flow made by [Flow.__init__] and then given a run of packets
    holds exactly those packets, in the order given, and still has the key
    and the interface it was made with. *)
Theorem init_then_add_packets
  (key : string * string * Z * Z) (interface : string)
  (l : list (Packet * PacketDirection)) :
  let self := Flow.add_packets (Flow.init key interface) l in
  Flow.packets self = l
  /\ (Flow.dest_ip self, Flow.src_ip self, Flow.src_port self,
      Flow.dest_port self) = key
  /\ Flow.interface self = interface.
Proof.
  cbn zeta.
  destruct (RunFacts.add_packets_key l (Flow.init key interface))
    as (H1 & H2 & H3 & H4 & H5).
  rewrite FlowFacts.add_packets_packets, H1, H2, H3, H4, H5.
  destruct key as [[[a b] c] d]. repeat split.
Qed.

(** X13.  When the standard deviation is 0 and the mean is a number,
    [get_cov] is -1 if the mean is 0 and a zero otherwise. *)
Theorem zero_std_cov (self : Flow.t) :
  (get_std self =? 0) = true ->
  FloatOrder.not_nan (get_mean self) ->
  (if get_mean self =? 0 then get_cov self =? -1 else get_cov self =? 0)
  = true.
Proof.
  intros Hs Hm. unfold get_cov, Py.ne.
  destruct (get_mean self =? 0) eqn:E; cbn [negb].
  - vm_compute. reflexivity.
  - now apply RunFacts.zero_div.
Qed.

Lemma zero_std_cov_witness :
  (get_std Scenario.single_delta =? 0) = true
  /\ (get_mean Scenario.single_delta =? 0) = false
  /\ (get_cov Scenario.single_delta =? 0) = true.
Proof.
  assert ((get_std Scenario.single_delta =? 0) = true) as Hs
    by (vm_compute; reflexivity).
  assert (FloatOrder.not_nan (get_mean Scenario.single_delta)) as Hm
    by (vm_compute; reflexivity).
  assert ((get_mean Scenario.single_delta =? 0) = false) as Hz
    by (vm_compute; reflexivity).
  pose proof (zero_std_cov Scenario.single_delta Hs Hm) as H.
  rewrite Hz in H.
  split; [exact Hs | split; [exact Hz | exact H]].
Defined.
